(** * trips-web-app: session handshake and trip telemetry pipeline

    A shallow embedding of the Go handlers of the trips web application
    ([api/get_trips.go], and the server's [main.go] that is kept next to
    [app-login/src/App.tsx]) together with the properties of the session
    handshake, the trip index and the telemetry path construction.

    Conventions of the embedding:
    - Go's [interface{}] values are the inductive [any];
    - [float64] is Rocq's primitive binary64 [float]; the program only moves
      these values, and the ones it meets come out of the JSON decoder,
      which yields finite numbers only, so that encoding them again in
      [c.JSON] cannot fail;
    - instants and durations are [Z] nanoseconds, as [time.Duration] and
      [UnixNano] have them;
    - a Go function returning [(T, error)] that may also panic is a
      computation in the monad [M], over the process-wide state [World];
    - what the network answers to an outbound request is an argument of the
      function that performs the request. *)

From Stdlib Require Import ZArith Floats.PrimFloat Sorting.Sorted Sorting.Permutation.
From stdpp Require Import gmap strings list fin_maps pretty sorting.

Set Warnings "-register-all".

Local Open Scope Z_scope.
Local Open Scope string_scope.

(** ** Dynamic values *)

(** Go's [interface{}], restricted to the dynamic types the program handles:
    what [encoding/json] decodes into ([nil], [bool], [float64], [string],
    [[]interface{}], [map[string]interface{}]) and the untyped constant
    [1] of the feature properties, an [int]. *)
Inductive any : Type :=
  | ANil
  | ABool (b : bool)
  | AFloat64 (f : float)
  | AInt (z : Z)
  | AString (s : string)
  | ASlice (l : list any)
  | AMap (m : gmap string any).

(** [m[k]] on a [map[string]interface{}]: a missing key reads as [nil]. *)
Definition index (m : gmap string any) (k : string) : any :=
  default ANil (m !! k).

(** The single-value type assertions [v.(T)]; [None] is the run-time panic
    of a failed assertion. *)
Definition assertMap (v : any) : option (gmap string any) :=
  match v with AMap m => Some m | _ => None end.

Definition assertSlice (v : any) : option (list any) :=
  match v with ASlice l => Some l | _ => None end.

Definition assertString (v : any) : option string :=
  match v with AString s => Some s | _ => None end.

Definition assertFloat64 (v : any) : option float :=
  match v with AFloat64 f => Some f | _ => None end.

(** ** Records of the program *)

Record TimeEntry := { Time : string }.

Record Trip := { ID : string; Start : TimeEntry; End : TimeEntry }.

Record TripsResponse := { Trips : list Trip }.

Record LocationData := { Latitude : float; Longitude : float }.

Record Vehicle := { vID : string; Make : string; Model : string; Year : Z }.

(** [VehicleResponse] is [Data.Vehicles.Nodes]; the two anonymous structs
    around the slice carry nothing else. *)
Record VehicleResponse := { Nodes : list Vehicle }.

Record GraphQLRequest := { Query : string }.

(** The fields of [config.Settings] the handlers read. *)
Record Settings := {
  TripsAPIBaseURL : string;
  DeviceDataAPIBaseURL : string;
  IdentityAPIURL : string;
  SubmitChallengeURL : string;
  ClientID : string;
  Domain : string;
  GrantType : string
}.

(** ** Outbound HTTP *)

Inductive payload :=
  | NoBody
  | FormBody (form : list (string * string))
  | GraphQLBody (q : GraphQLRequest).

Record Request := {
  Method : string;
  URL : string;
  Header : list (string * string);
  Payload : payload
}.

(** What reading and decoding a response body gives: [A] is the Go type the
    caller decodes into. *)
Inductive body (A : Type) :=
  | Unreadable (e : string)
  | Undecodable (e : string)
  | Decoded (a : A).
Arguments Unreadable {A} e.
Arguments Undecodable {A} e.
Arguments Decoded {A} a.

Record Response (A : Type) := { StatusCode : Z; Body : body A }.
Arguments StatusCode {A} r.
Arguments Body {A} r.

(** The outcome of [client.Do] / [http.Post]: a transport error, or a
    response. *)
Inductive roundTrip (A : Type) :=
  | TransportErr (e : string)
  | Resp (r : Response A).
Arguments TransportErr {A} e.
Arguments Resp {A} r.

(** ** The expiring cache

    [CacheInstance] is a [go-cache] store (github.com/patrickmn/go-cache, a
    dependency): a map from keys to items that carry an absolute expiry in
    nanoseconds, [0] or less meaning none. The janitor only removes items
    [Get] already reports as missing, so it is not modelled. *)

Record Item := { Object : any; Expiration : Z }.

Definition Hour : Z := 3600 * 1000000000.

(** [cache.New(cache.DefaultExpiration, 10*time.Minute)]: a default
    expiration of [0] is turned into [-1], no expiry. *)
Definition defaultExpiration : Z := -1.

(** [c.Set(k, x, d)] at instant [now]. *)
Definition cacheSet (k : string) (x : any) (d : Z) (now : Z)
    (c : gmap string Item) : gmap string Item :=
  let d := if decide (d = 0) then defaultExpiration else d in
  let e := if decide (0 < d) then now + d else 0 in
  <[k := {| Object := x; Expiration := e |}]> c.

(** [c.Get(k)] at instant [now]: [None] is [found == false]. *)
Definition cacheGet (k : string) (now : Z) (c : gmap string Item) : option any :=
  match c !! k with
  | None => None
  | Some item =>
      if decide (0 < Expiration item ∧ Expiration item < now) then None
      else Some (Object item)
  end.

(** ** Process state and the computation monad *)

(** The package-level variables, and the log of the outbound requests that
    were actually sent. The source names the cache [cacheInstance] where a
    session is written and [CacheInstance] where the privilege token is
    read; the model has the one store. *)
Record World := {
  CacheInstance : gmap string Item;
  tripIDToTokenIDMap : gmap string Z;
  outbound : list Request
}.

Inductive result (A : Type) :=
  | Ok (a : A)
  | Err (e : string)
  | Panic.
Arguments Ok {A} a.
Arguments Err {A} e.
Arguments Panic {A}.

Definition M (A : Type) : Type := World → result A * World.

Definition ret {A} (a : A) : M A := λ w, (Ok a, w).

Definition fail {A} (e : string) : M A := λ w, (Err e, w).

Definition panic {A} : M A := λ w, (Panic, w).

Definition bind {A B} (m : M A) (k : A → M B) : M B :=
  λ w, match m w with
       | (Ok a, w') => k a w'
       | (Err e, w') => (Err e, w')
       | (Panic, w') => (Panic, w')
       end.

Declare Scope go_scope.
Delimit Scope go_scope with go.
Notation "'let*' x ':=' m 'in' k" := (bind m (λ x, k))
  (at level 10, x pattern, m at level 100, k at level 200) : go_scope.

(** [x, err := f(...)] followed by a branch on [err]. *)
Definition try {A} (m : M A) : M (string + A) :=
  λ w, match m w with
       | (Ok a, w') => (Ok (inr a), w')
       | (Err e, w') => (Ok (inl e), w')
       | (Panic, w') => (Panic, w')
       end.

(** An unchecked type assertion: panics where the assertion fails. *)
Definition assert {A} (o : option A) : M A :=
  match o with Some a => ret a | None => panic end.

Definition getWorld : M World := λ w, (Ok w, w).

Definition setIndex (idx : gmap string Z) : M unit :=
  λ w, (Ok tt, {| CacheInstance := CacheInstance w;
                  tripIDToTokenIDMap := idx;
                  outbound := outbound w |}).

Definition setCache (c : gmap string Item) : M unit :=
  λ w, (Ok tt, {| CacheInstance := c;
                  tripIDToTokenIDMap := tripIDToTokenIDMap w;
                  outbound := outbound w |}).

(** Sending a request: it is logged, then the network answers. *)
Definition send {A} (net : Request → roundTrip A) (req : Request) : M (Response A) :=
  λ w, let w' := {| CacheInstance := CacheInstance w;
                    tripIDToTokenIDMap := tripIDToTokenIDMap w;
                    outbound := outbound w ++ [req] |} in
       match net req with
       | TransportErr e => (Err e, w')
       | Resp r => (Ok r, w')
       end.

(** ** Telemetry hits *)

(** [hit.(map[string]interface{})["_source"].(map[string]interface{})["data"].(map[string]interface{})] *)
Definition dataOf (hit : any) : option (gmap string any) :=
  hitMap ← assertMap hit;
  source ← assertMap (index hitMap "_source");
  assertMap (index source "data").

(** The timestamp the comparison reads: [...["timestamp"].(string)]. *)
Definition timestampOf (hit : any) : option string :=
  data ← dataOf hit;
  assertString (index data "timestamp").

(** The hits array of a decoded telemetry document,
    [result["hits"].(map[string]interface{})["hits"].([]interface{})]. *)
Definition hitsIn (result : gmap string any) : option (list any) :=
  outer ← assertMap (index result "hits");
  assertSlice (index outer "hits").

(** The [less] closure handed to [sort.SliceStable], on the two hits it
    indexes: Go's [<] on strings is [String.ltb], the lexicographic order
    on bytes. [None] is a panic of one of its assertions. *)
Definition less (hi hj : any) : option bool :=
  iTimestamp ← timestampOf hi;
  jTimestamp ← timestampOf hj;
  Some (String.ltb iTimestamp jTimestamp).

(** The inner loop of the library's insertion sort,
    [for j := i; j > a && less(j, j-1); j-- { swap(j, j-1) }]:
    [sortedRev] is the sorted prefix [data[a:i]] from its last element
    down, [x] is [data[i]], and the result is the prefix [data[a:i+1]],
    again from its last element down. *)
Fixpoint insertBack (x : any) (sortedRev : list any) : option (list any) :=
  match sortedRev with
  | [] => Some [x]
  | y :: r =>
      b ← less x y;
      if (b : bool) then (y ::.) <$> insertBack x r else Some (x :: y :: r)
  end.

(** The outer loop, [for i := a + 1; i < b; i++]. *)
Fixpoint insertionSort (sortedRev rest : list any) : option (list any) :=
  match rest with
  | [] => Some (reverse sortedRev)
  | x :: rest' => acc ← insertBack x sortedRev; insertionSort acc rest'
  end.

(** [sort.SliceStable(hits, less)]. The library sorts blocks of 20 elements
    by insertion and then merges the blocks in place; a slice of at most 20
    elements is sorted by this insertion alone. On longer slices the merge
    passes compute the same slice (the stable arrangement is unique) and
    every element is still handed to [less] at least once, so the model is
    the insertion sort throughout. *)
Definition SliceStable (hits : list any) : option (list any) :=
  insertionSort [] hits.

(** One iteration of the loop of [extractLocationData], get_trips.go lines
    163-175. *)
Definition locationOf (hit : any) : option LocationData :=
  data ← dataOf hit;
  latitude ← assertFloat64 (index data "latitude");
  longitude ← assertFloat64 (index data "longitude");
  Some {| Latitude := latitude; Longitude := longitude |}.

Definition extractLocationData (hits : list any) : option (list LocationData) :=
  mapM locationOf hits.

(** ** GeoJSON (github.com/paulmach/go.geojson) *)

Record Geometry := { gType : string; LineString : list (list float) }.

Record Feature := {
  fType : string;
  geometry : Geometry;
  Properties : gmap string any
}.

Record FeatureCollection := { fcType : string; Features : list Feature }.

Definition NewLineStringFeature (coords : list (list float)) : Feature :=
  {| fType := "Feature";
     geometry := {| gType := "LineString"; LineString := coords |};
     Properties := ∅ |}.

Definition NewFeatureCollection : FeatureCollection :=
  {| fcType := "FeatureCollection"; Features := [] |}.

Definition AddFeature (fc : FeatureCollection) (feature : Feature) : FeatureCollection :=
  {| fcType := fcType fc; Features := Features fc ++ [feature] |}.

(** [convertToGeoJSON], get_trips.go lines 177-202. *)
Definition convertToGeoJSON (locations : list LocationData)
    (tripID tripStart tripEnd : string) : FeatureCollection :=
  let coords := (λ loc, [Longitude loc; Latitude loc]) <$> locations in
  let feature := NewLineStringFeature coords in
  let feature :=
    {| fType := fType feature;
       geometry := geometry feature;
       Properties :=
         <["type" := AString "LineString"]>
         (<["trip_id" := AString tripID]>
         (<["trip_start" := AString tripStart]>
         (<["trip_end" := AString tripEnd]>
         (<["privacy_zone" := AInt 1]>
         (<["color" := AString "black"]>
         (<["point-color" := AString "black"]> ∅)))))) |} in
  AddFeature NewFeatureCollection feature.

(** ** Responses of the handlers (fiber) *)

(** The fields of [fiber.Cookie] the program sets; the others keep their
    zero value. *)
Record Cookie := {
  Name : string;
  Value : string;
  Expires : Z;
  HTTPOnly : bool;
  CookieDomain : string
}.

Inductive sent :=
  | SendString (s : string)
  | JSON (v : any)
  | GeoJSON (fc : FeatureCollection)
  | Render (view title : string) (vehicles : list Vehicle).

Record HTTPResponse := { Status : Z; SetCookie : list Cookie; Sent : sent }.

Definition StatusOK : Z := 200.
Definition StatusBadRequest : Z := 400.
Definition StatusNotFound : Z := 404.
Definition StatusInternalServerError : Z := 500.

(** [c.Status(code).SendString(s)] and [c.Status(code).JSON(v)] on a
    context that has set no cookie. *)
Definition reply (code : Z) (s : sent) : HTTPResponse :=
  {| Status := code; SetCookie := []; Sent := s |}.

(** ** Decoding into a map *)

Definition kindOf (v : any) : string :=
  match v with
  | ANil => "null"
  | ABool _ => "bool"
  | AFloat64 _ | AInt _ => "number"
  | AString _ => "string"
  | ASlice _ => "array"
  | AMap _ => "object"
  end.

(** [json.Unmarshal(body, &m)] for [m map[string]interface{}], on a body
    that is the JSON text of [v]: an object fills the map, [null] leaves it
    nil (which reads as the empty map), anything else is a type error. *)
Definition unmarshalMap (v : any) : string + gmap string any :=
  match v with
  | AMap m => inr m
  | ANil => inr ∅
  | _ => inl ("json: cannot unmarshal " +:+ kindOf v +:+
              " into Go value of type map[string]interface {}")
  end.

(** The loop of [queryTripsAPI] over the returned trips. *)
Definition recordTrips (tokenID : Z) (trips : list Trip)
    (idx : gmap string Z) : gmap string Z :=
  foldl (λ idx trip, <[ID trip := tokenID]> idx) idx trips.

Definition EthereumAddressKey : string := "ethereum_address".

Definition dquote : string := String (Ascii.ascii_of_nat 34) EmptyString.

(** The GraphQL text of [queryIdentityAPIForVehicles]. *)
Definition graphqlQuery (ethAddress : string) : string :=
  "{
        vehicles(first: 10, filterBy: { owner: " +:+ dquote +:+ ethAddress +:+ dquote +:+ " }) {
            nodes {
                tokenId,
                earnings {
                    totalTokens
                },
                definition {
                    make,
                    model,
                    year
                },
                aftermarketDevice {
                    address,
                    serial,
                    manufacturer {
                        name
                    }
                }
            }
        }
    }".

(** ** Predicates of the statements *)

Definition hasTimestamp (hit : any) : Prop := is_Some (timestampOf hit).

(** [h1] is not after [h2]: both carry a timestamp and the one of [h2] is
    not below the one of [h1] in the lexicographic order. *)
Definition notAfter (h1 h2 : any) : Prop :=
  match timestampOf h1, timestampOf h2 with
  | Some t1, Some t2 => String.ltb t2 t1 = false
  | _, _ => False
  end.

Global Instance notAfter_dec h1 h2 : Decision (notAfter h1 h2).
Proof. unfold notAfter. destruct (timestampOf h1), (timestampOf h2); apply _. Defined.

(** Ascending by timestamp: every hit is not after its successor. *)
Definition ascending (hits : list any) : Prop := Sorted notAfter hits.

(** The hits of [hits] that carry the timestamp [t], in their order. *)
Definition withTimestamp (t : string) (hits : list any) : list any :=
  filter (λ hit, timestampOf hit = Some t) hits.

Definition hasLocation (hit : any) : Prop := is_Some (locationOf hit).

(** A telemetry hit as the history service sends it,
    [{"_source": {"data": {"latitude": .., "longitude": .., "timestamp": ..}}}],
    and the document around the hits, [{"hits": {"hits": [..]}}]. *)
Definition sampleHit (latitude longitude : float) (timestamp : string) : any :=
  AMap {[ "_source" := AMap {[ "data" := AMap
    (<["latitude" := AFloat64 latitude]>
    (<["longitude" := AFloat64 longitude]>
    (<["timestamp" := AString timestamp]> ∅))) ]} ]}.

Definition telemetryDoc (hits : list any) : gmap string any :=
  {[ "hits" := AMap {[ "hits" := ASlice hits ]} ]}.

(** The state after one more request went out. *)
Definition sentAlso (req : Request) (w : World) : World :=
  {| CacheInstance := CacheInstance w;
     tripIDToTokenIDMap := tripIDToTokenIDMap w;
     outbound := outbound w ++ [req] |}.

(** The coordinate list of the single feature a response carries. *)
Definition coordinatesOf (r : HTTPResponse) : option (list (list float)) :=
  match Sent r with
  | GeoJSON fc =>
      match Features fc with
      | [feature] => Some (LineString (geometry feature))
      | _ => None
      end
  | _ => None
  end.

(** The provider accepts a submission, in the words of the handshake's
    contract: a status below 300, a body that decodes as a mapping, and an
    [access_token] field in it; the result is that field. *)
Definition accessTokenOf (r : roundTrip any) : option any :=
  match r with
  | Resp resp =>
      match Body resp with
      | Decoded (AMap m) =>
          if decide (StatusCode resp < 300)%Z then m !! "access_token" else None
      | _ => None
      end
  | TransportErr _ => None
  end.

(** The cookie of an established session. *)
Definition sessionCookieOf (sessionID : string) (tCookie : Z) : Cookie :=
  {| Name := "session_id";
     Value := sessionID;
     Expires := tCookie + 2 * Hour;
     HTTPOnly := true;
     CookieDomain := "localhost" |}.

(** The state with another cache. *)
Definition withCache (c : gmap string Item) (w : World) : World :=
  {| CacheInstance := c;
     tripIDToTokenIDMap := tripIDToTokenIDMap w;
     outbound := outbound w |}.

(** A value is visible in a response when it is the value of a cookie or
    of a field of a JSON body. *)
Definition visibleIn (v : any) (resp : HTTPResponse) : Prop :=
  (∃ cookie, cookie ∈ SetCookie resp ∧ v = AString (Value cookie))
  ∨ (∃ m k, Sent resp = JSON (AMap m) ∧ m !! k = Some v).

(** The process at start: an empty cache, [make(map[string]int64)], and
    nothing sent yet. *)
Definition boot : World :=
  {| CacheInstance := ∅; tripIDToTokenIDMap := ∅; outbound := [] |}.

(** The requests a process serves, each with what its environment gives
    it. *)
Inductive call :=
  | ListTrips (net : Request → roundTrip TripsResponse) (tokenID : Z)
      (sessionCookie : string) (now : Z)
  | MapDataForTrip (net : Request → roundTrip any) (sessionCookie : string)
      (now : Z) (tripID startTime endTime : string)
  | SubmitChallenge (net : Request → roundTrip any)
      (state signature sessionID : string) (tSet tCookie : Z)
  | GetVehicles (net : Request → roundTrip VehicleResponse) (local : any).

(** ** The challenge endpoint and the error handler (main.go) *)

Record ChallengeResponse := { State : string; Challenge : string }.

(** The fields of [config.Settings] that only [HandleGenerateChallenge]
    reads. *)
Record ChallengeSettings := { AuthURL : string; Scope : string; ResponseType : string }.

(** [c.JSON(apiResp)]: the two fields under their JSON names. *)
Definition challengeJSON (apiResp : ChallengeResponse) : any :=
  AMap (<["state" := AString (State apiResp)]>
       (<["challenge" := AString (Challenge apiResp)]> ∅)).

(** Go errors as [ErrorHandler] can tell them apart: a [*fiber.Error], an
    error that wraps another one (its [Unwrap] gives the cause), and any
    other error with its text. *)
Inductive goError :=
  | FiberError (code : Z) (message : string)
  | Wrap (text : string) (cause : goError)
  | ErrorString (text : string).

(** [errors.As(err, &e)] for [e *fiber.Error]: the first [*fiber.Error] on
    the chain of causes. *)
Fixpoint asFiberError (err : goError) : option (Z * string) :=
  match err with
  | FiberError code message => Some (code, message)
  | Wrap _ cause => asFiberError cause
  | ErrorString _ => None
  end.

(** [ErrorHandler], main.go; the log line does not touch the answer. *)
Definition ErrorHandler (err : goError) : HTTPResponse :=
  let code := StatusInternalServerError in
  let message := "Internal Server Error" in
  let '(code, message) :=
    match asFiberError err with
    | Some (eCode, eMessage) => (eCode, eMessage)
    | None => (code, message)
    end in
  reply code (JSON (AMap (<["error" := ABool true]>
                         (<["message" := AString message]> ∅)))).

(** The texts an error chain carries, outermost first. *)
Fixpoint textsOf (err : goError) : list string :=
  match err with
  | FiberError _ message => [message]
  | Wrap text cause => text :: textsOf cause
  | ErrorString text => [text]
  end.

(** What is left of an answer when its status is put aside: the transport
    error or the body. *)
Definition contentOf {A} (r : roundTrip A) : string + body A :=
  match r with
  | TransportErr e => inl e
  | Resp resp => inr (Body resp)
  end.

(** The challenge the provider hands out, if its body decodes with both
    parts present. *)
Definition challengeOf (r : roundTrip ChallengeResponse) : option ChallengeResponse :=
  match contentOf r with
  | inr (Decoded apiResp) =>
      if decide (State apiResp = EmptyString ∨ Challenge apiResp = EmptyString)
      then None else Some apiResp
  | _ => None
  end.

(** A coordinate pair read back as a location. *)
Definition locationOfPair (pair : list float) : option LocationData :=
  match pair with
  | [longitude; latitude] => Some {| Latitude := latitude; Longitude := longitude |}
  | _ => None
  end.


(** ** The login page (App.tsx) *)

(** [AuthenticationStatus] of the wallet kit. *)
Inductive AuthenticationStatus := loading | unauthenticated | authenticated.

Global Instance AuthenticationStatus_eq_dec : EqDecision AuthenticationStatus.
Proof. solve_decision. Defined.

(** A [DIMODexMessage]; a field that is [undefined] is [None]. *)
Record DIMODexMessage := { msgState : option any; msgChallenge : option any }.

(** How a call or an awaited promise ends: with a value, or with an
    exception (a rejection). *)
Inductive completion (A : Type) :=
  | Returns (a : A)
  | Throws (reason : string).
Arguments Returns {A} a.
Arguments Throws {A} reason.

(** The part of a [Response] the page reads: [ok], and what
    [await response.text()] gives. *)
Record FetchResponse := { resOk : bool; resText : completion string }.

(** A call of [fetch]. The body is the object handed to [JSON.stringify],
    as the list of its fields. *)
Record FetchRequest := {
  fURL : string;
  fMethod : string;
  fHeaders : list (string * string);
  fCredentials : option string;
  fBody : option (list (string * any))
}.

(** [JSON.stringify] of an object literal leaves out the fields that are
    [undefined]. *)
Definition stringifyFields (fields : list (string * option any)) : list (string * any) :=
  omap (λ kv, (λ v, (kv.1, v)) <$> kv.2) fields.

(** Reading a property that no prototype defines, such as [state] or
    [challenge], off a value that [JSON.parse] returned: [null] throws, an
    object gives its own field or [undefined], and so does every other
    value. *)
Definition property (v : any) (k : string) : completion (option any) :=
  match v with
  | ANil => Throws "TypeError"
  | AMap m => Returns (m !! k)
  | _ => Returns None
  end.

(** The page: the [status] of [useState], and the address the window was
    last sent to, if any. *)
Record Page := { pageStatus : AuthenticationStatus; pageHref : option string }.

(** The page as mounted: the effect has run once and, the status being
    [unauthenticated], has done nothing. *)
Definition mounted : Page := {| pageStatus := unauthenticated; pageHref := None |}.

Section LoginPage.

(** [JSON.parse], [None] being its [SyntaxError], and
    [import.meta.env.DIMO_API_BASEURL]. *)
Variable JSONparse : string → option any.
Variable DIMO_API_BASEURL : string.

Definition nonceRequest (address : option string) : FetchRequest :=
  {| fURL := DIMO_API_BASEURL +:+ "/auth/web3/generate_challenge";
     fMethod := "POST";
     fHeaders := [("Content-Type", "application/json")];
     fCredentials := None;
     fBody := Some (stringifyFields [("address", AString <$> address)]) |}.

(** [getNonce]; [address] is [account?.address]. *)
Definition getNonce (fetch : FetchRequest → completion FetchResponse)
    (address : option string) : completion string :=
  match fetch (nonceRequest address) with
  | Throws reason => Throws reason
  | Returns response =>
      if negb (resOk response) then Throws "Failed to fetch nonce"
      else resText response
  end.

(** [createMessage]. *)
Definition createMessage (nonce : string) : completion DIMODexMessage :=
  match JSONparse nonce with
  | None => Throws "SyntaxError"
  | Some message =>
      match property message "state" with
      | Throws reason => Throws reason
      | Returns state =>
          match property message "challenge" with
          | Throws reason => Throws reason
          | Returns challenge =>
              Returns {| msgState := state; msgChallenge := challenge |}
          end
      end
  end.

Definition verifyRequest (message : DIMODexMessage) (signature : string) : FetchRequest :=
  {| fURL := DIMO_API_BASEURL +:+ "/auth/web3/submit_challenge";
     fMethod := "POST";
     fHeaders := [("Content-Type", "application/json")];
     fCredentials := None;
     fBody := Some (stringifyFields [("state", msgState message);
                                     ("signature", Some (AString signature))]) |}.

(** [verify]: what it returns or throws, and the status it leaves. *)
Definition verify (fetch : FetchRequest → completion FetchResponse)
    (message : DIMODexMessage) (signature : string) (status : AuthenticationStatus)
    : completion bool * AuthenticationStatus :=
  match fetch (verifyRequest message signature) with
  | Throws reason => (Throws reason, status)
  | Returns verifyRes =>
      if negb (resOk verifyRes) then (Throws "Failed to verify signature", status)
      else (Returns (resOk verifyRes), authenticated)
  end.

Definition logoutRequest : FetchRequest :=
  {| fURL := "/api/logout";
     fMethod := "GET";
     fHeaders := [];
     fCredentials := None;
     fBody := None |}.

(** [signOut]. *)
Definition signOut (fetch : FetchRequest → completion FetchResponse)
    (status : AuthenticationStatus) : completion unit * AuthenticationStatus :=
  match fetch logoutRequest with
  | Throws reason => (Throws reason, status)
  | Returns _ => (Returns tt, status)
  end.

Definition loginRequest (token : string) : FetchRequest :=
  {| fURL := "/login-jwt";
     fMethod := "POST";
     fHeaders := [("Content-Type", "application/json")];
     fCredentials := Some "include";
     fBody := Some (stringifyFields [("jwt", Some (AString token))]) |}.

(** [onSuccess] of the login widget: the promise chain ends in [catch], so
    nothing is thrown; the status it leaves. *)
Definition onSuccess (fetch : FetchRequest → completion FetchResponse)
    (token : string) (status : AuthenticationStatus) : AuthenticationStatus :=
  match fetch (loginRequest token) with
  | Throws _ => status
  | Returns response => if resOk response then authenticated else status
  end.

(** The effect on [status]: where it sends the window. *)
Definition effect (status : AuthenticationStatus) (href : option string) : option string :=
  if decide (status = authenticated)
  then Some (DIMO_API_BASEURL +:+ "/vehicles/me")
  else href.

(** What happens on the page, each with the network it meets. *)
Inductive event :=
  | GetNonce (fetch : FetchRequest → completion FetchResponse) (address : option string)
  | CreateMessage (nonce : string)
  | Verify (fetch : FetchRequest → completion FetchResponse)
      (message : DIMODexMessage) (signature : string)
  | SignOut (fetch : FetchRequest → completion FetchResponse)
  | LoginSuccess (fetch : FetchRequest → completion FetchResponse) (token : string)
  | LoginError.

(** The status an event leaves. *)
Definition statusAfter (e : event) (status : AuthenticationStatus) : AuthenticationStatus :=
  match e with
  | Verify fetch message signature => (verify fetch message signature status).2
  | SignOut fetch => (signOut fetch status).2
  | LoginSuccess fetch token => onSuccess fetch token status
  | GetNonce _ _ | CreateMessage _ | LoginError => status
  end.

(** One event: the status is set, and the effect runs if it changed. *)
Definition after (e : event) (p : Page) : Page :=
  let status := statusAfter e (pageStatus p) in
  {| pageStatus := status;
     pageHref := if decide (status = pageStatus p) then pageHref p
                 else effect status (pageHref p) |}.

Definition afterAll (es : list event) (p : Page) : Page :=
  foldl (λ p e, after e p) p es.

(** The event is a verification or a widget login whose request was
    answered with [ok]. *)
Definition granted (e : event) : bool :=
  match e with
  | Verify fetch message signature =>
      match fetch (verifyRequest message signature) with
      | Returns response => resOk response
      | Throws _ => false
      end
  | LoginSuccess fetch token =>
      match fetch (loginRequest token) with
      | Returns response => resOk response
      | Throws _ => false
      end
  | _ => false
  end.

End LoginPage.


(** ** Sample data *)

(** An environment in which every URL parses, and [url.QueryEscape] on
    strings of unreserved characters, which it leaves as they are. *)
Definition everyURLParses : string → option string := λ _, None.

Definition escapeNothing : string → string := λ s, s.

Definition sampleSettings : Settings :=
  {| TripsAPIBaseURL := "https://trips.example";
     DeviceDataAPIBaseURL := "https://telemetry.example";
     IdentityAPIURL := "https://identity.example/query";
     SubmitChallengeURL := "https://auth.example/submit";
     ClientID := "trips-app";
     Domain := "localhost";
     GrantType := "authorization_code" |}.

(** A network that answers every request with the given status and decoded
    body. *)
Definition answer {A} (status : Z) (a : A) : Request → roundTrip A :=
  λ _, Resp {| StatusCode := status; Body := Decoded a |}.

(** The body with which the provider grants the access token [tok]. *)
Definition sampleGrant : any := AMap {[ "access_token" := AString "tok" ]}.

(** A process that listed trip [trip-1] for vehicle 7 and holds an
    unexpiring privilege token for session [sid-1]. *)
Definition sampleWorld : World :=
  {| CacheInstance :=
       {[ "privilegeToken_sid-1" := {| Object := AString "tok"; Expiration := 0 |} ]};
     tripIDToTokenIDMap := {[ "trip-1" := 7 ]};
     outbound := [] |}.

(** The same trip index with an empty cache. *)
Definition indexedWorld : World :=
  {| CacheInstance := ∅;
     tripIDToTokenIDMap := {[ "trip-1" := 7 ]};
     outbound := [] |}.

(** A hit without a timestamp and a hit without a latitude. *)
Definition hitWithoutTimestamp (latitude longitude : float) : any :=
  AMap {[ "_source" := AMap {[ "data" := AMap
    (<["latitude" := AFloat64 latitude]>
    (<["longitude" := AFloat64 longitude]> ∅)) ]} ]}.

Definition hitWithoutLatitude (longitude : float) (timestamp : string) : any :=
  AMap {[ "_source" := AMap {[ "data" := AMap
    (<["longitude" := AFloat64 longitude]>
    (<["timestamp" := AString timestamp]> ∅)) ]} ]}.

(** A trip of the listing service. *)
Definition sampleTrip (id : string) : Trip :=
  {| ID := id;
     Start := {| Time := "2024-01-01T00:00:00Z" |};
     End := {| Time := "2024-01-01T01:00:00Z" |} |}.

(** A process with privilege tokens for two sessions and no trip listed,
    and one whose cached token for session [sid-3] is a number. *)
Definition twoSessionsWorld : World :=
  {| CacheInstance :=
       <["privilegeToken_sid-1" := {| Object := AString "tok"; Expiration := 0 |}]>
       (<["privilegeToken_sid-2" := {| Object := AString "tok2"; Expiration := 0 |}]> ∅);
     tripIDToTokenIDMap := ∅;
     outbound := [] |}.

Definition numberTokenWorld : World :=
  {| CacheInstance :=
       {[ "privilegeToken_sid-3" := {| Object := AFloat64 1; Expiration := 0 |} ]};
     tripIDToTokenIDMap := ∅;
     outbound := [] |}.

(** A [fetch] that answers every call with [ok] and the given text, and the
    text of a challenge. *)
Definition fetchOk (text : string) : FetchRequest → completion FetchResponse :=
  λ _, Returns {| resOk := true; resText := Returns text |}.

Definition sampleChallenge : ChallengeResponse := {| State := "s1"; Challenge := "c1" |}.

(** A parser that reads the one text [nonce-text] as the object of
    [sampleChallenge]. *)
Definition parseSample (text : string) : option any :=
  if decide (text = "nonce-text") then Some (challengeJSON sampleChallenge) else None.

Local Open Scope go_scope.

Section Handlers.

(** Two library functions of [net/url] and [net/http] whose text the
    program does not depend on: the error, if any, with which a URL fails
    to parse in [http.NewRequest] / [http.Post], and [url.QueryEscape]. *)
Variable urlParseError : string → option string.
Variable QueryEscape : string → string.

Definition NewRequest (method url : string) (p : payload) : M Request :=
  match urlParseError url with
  | Some e => fail e
  | None => ret {| Method := method; URL := url; Header := []; Payload := p |}
  end.

(** [req.Header.Set(k, v)] *)
Definition HeaderSet (req : Request) (k v : string) : Request :=
  {| Method := Method req;
     URL := URL req;
     Header := filter (λ kv, kv.1 ≠ k) (Header req) ++ [(k, v)];
     Payload := Payload req |}.

Definition Post {A} (net : Request → roundTrip A)
    (url contentType : string) (p : payload) : M (Response A) :=
  let* req := NewRequest "POST" url p in
  send net (HeaderSet req "Content-Type" contentType).

(** *** get_trips.go *)

(** [queryTripsAPI], get_trips.go lines 38-78. [sessionCookie] is
    [c.Cookies("session_id")]; [now] is the instant of the cache lookup. *)
Definition queryTripsAPI (net : Request → roundTrip TripsResponse)
    (tokenID : Z) (settings : Settings) (sessionCookie : string) (now : Z)
    : M (list Trip) :=
  let privilegeTokenKey := "privilegeToken_" +:+ sessionCookie in
  let* w := getWorld in
  match cacheGet privilegeTokenKey now (CacheInstance w) with
  | None => fail "privilege token not found in cache"
  | Some token =>
      let url := TripsAPIBaseURL settings +:+ "/vehicle/" +:+ pretty tokenID +:+ "/trips" in
      let* req := NewRequest "GET" url NoBody in
      let* bearer := assert (assertString token) in
      let req := HeaderSet req "Authorization" ("Bearer " +:+ bearer) in
      let* resp := send net req in
      match Body resp with
      | Unreadable e | Undecodable e => fail e
      | Decoded tripsResponse =>
          let* w := getWorld in
          let* _ := setIndex (recordTrips tokenID (Trips tripsResponse)
                                (tripIDToTokenIDMap w)) in
          ret (Trips tripsResponse)
      end
  end.

(** [queryDeviceDataHistory], get_trips.go lines 80-134. *)
Definition queryDeviceDataHistory (net : Request → roundTrip any)
    (tokenID : Z) (startTime endTime : string) (settings : Settings)
    (sessionCookie : string) (now : Z) : M (list LocationData) :=
  let privilegeTokenKey := "privilegeToken_" +:+ sessionCookie in
  let* w := getWorld in
  match cacheGet privilegeTokenKey now (CacheInstance w) with
  | None => fail "privilege token not found in cache"
  | Some token =>
      let ddUrl := DeviceDataAPIBaseURL settings +:+ "/vehicle/" +:+ pretty tokenID
                   +:+ "/history?startDate=" +:+ QueryEscape startTime
                   +:+ "&endDate=" +:+ QueryEscape endTime in
      let* req := NewRequest "GET" ddUrl NoBody in
      let* bearer := assert (assertString token) in
      let req := HeaderSet req "Authorization" ("Bearer " +:+ bearer) in
      let* resp := send net req in
      match Body resp with
      | Unreadable e | Undecodable e => fail e
      | Decoded v =>
          match unmarshalMap v with
          | inl e => fail e
          | inr result =>
              let* hits := assert (hitsIn result) in
              let* hits := assert (SliceStable hits) in
              let* locations := assert (extractLocationData hits) in
              ret locations
          end
      end
  end.

(** [handleMapDataForTrip], get_trips.go lines 136-161. The encoding of the
    collection for the log has no effect on the answer. *)
Definition handleMapDataForTrip (net : Request → roundTrip any)
    (sessionCookie : string) (now : Z) (settings : Settings)
    (tripID startTime endTime : string) : M HTTPResponse :=
  let* w := getWorld in
  match tripIDToTokenIDMap w !! tripID with
  | None => ret (reply StatusNotFound (SendString "Trip not found"))
  | Some tokenID =>
      let* r := try (queryDeviceDataHistory net tokenID startTime endTime
                       settings sessionCookie now) in
      match r with
      | inl err =>
          ret (reply StatusInternalServerError
                 (JSON (AMap {[ "error" :=
                     AString ("Failed to fetch historical data: " +:+ err) ]})))
      | inr locations =>
          let geoJSON := convertToGeoJSON locations tripID startTime endTime in
          ret (reply StatusOK (GeoJSON geoJSON))
      end
  end.

(** *** main.go *)

(** [queryIdentityAPIForVehicles], main.go. Encoding the request payload, a
    struct of one string, cannot fail. *)
Definition queryIdentityAPIForVehicles (net : Request → roundTrip VehicleResponse)
    (ethAddress : string) (settings : Settings) : M (list Vehicle) :=
  let requestPayload := {| Query := graphqlQuery ethAddress |} in
  let* req := NewRequest "POST" (IdentityAPIURL settings) (GraphQLBody requestPayload) in
  let req := HeaderSet req "Content-Type" "application/json" in
  let* resp := send net req in
  match Body resp with
  | Unreadable e | Undecodable e => fail e
  | Decoded response => ret (Nodes response)
  end.

(** [HandleGetVehicles], main.go. [local] is
    [c.Locals(EthereumAddressKey)]. *)
Definition HandleGetVehicles (net : Request → roundTrip VehicleResponse)
    (local : any) (settings : Settings) : M HTTPResponse :=
  match assertString local with
  | None => ret (reply StatusBadRequest (SendString "Ethereum address is required"))
  | Some ethAddress =>
      if decide (ethAddress = EmptyString)
      then ret (reply StatusBadRequest (SendString "Ethereum address is required"))
      else
        let* r := try (queryIdentityAPIForVehicles net ethAddress settings) in
        match r with
        | inl err =>
            ret (reply StatusInternalServerError
                   (SendString ("Error querying identity API: " +:+ err)))
        | inr vehicles => ret (reply StatusOK (Render "vehicles" "My Vehicles" vehicles))
        end
  end.

(** [HandleSubmitChallenge], main.go. [state] and [signature] are the two
    form values; [sessionID] is the string of [uuid.New()], [tSet] the
    clock reading inside [cacheInstance.Set] and [tCookie] the one of
    [time.Now()] for the cookie. The form is kept as the list of its
    fields, not as its URL encoding. *)
Definition HandleSubmitChallenge (net : Request → roundTrip any)
    (settings : Settings) (state signature : string)
    (sessionID : string) (tSet tCookie : Z) : M HTTPResponse :=
  let formData := [("client_id", ClientID settings);
                   ("domain", Domain settings);
                   ("grant_type", GrantType settings);
                   ("state", state);
                   ("signature", signature)] in
  let reqURL := SubmitChallengeURL settings in
  let* r := try (Post net reqURL "application/x-www-form-urlencoded" (FormBody formData)) in
  match r with
  | inl _ =>
      ret (reply StatusInternalServerError
             (SendString "Failed to make request to external service"))
  | inr resp =>
      if decide (300 ≤ StatusCode resp)%Z
      then ret (reply StatusInternalServerError
                  (SendString ("Received non-success status code: "
                               +:+ pretty (StatusCode resp))))
      else
        match Body resp with
        | Unreadable _ =>
            ret (reply StatusInternalServerError
                   (SendString "Failed to read response from external service"))
        | Undecodable _ =>
            ret (reply StatusInternalServerError (SendString "Error processing response"))
        | Decoded v =>
            match unmarshalMap v with
            | inl _ =>
                ret (reply StatusInternalServerError
                       (SendString "Error processing response"))
            | inr responseMap =>
                match responseMap !! "access_token" with
                | None =>
                    ret (reply StatusInternalServerError
                           (SendString "Token not found in response"))
                | Some token =>
                    let* w := getWorld in
                    let* _ := setCache (cacheSet sessionID token (2 * Hour) tSet
                                          (CacheInstance w)) in
                    let cookie := {| Name := "session_id";
                                     Value := sessionID;
                                     Expires := tCookie + 2 * Hour;
                                     HTTPOnly := true;
                                     CookieDomain := "localhost" |} in
                    ret {| Status := StatusOK;
                           SetCookie := [cookie];
                           Sent := JSON (AMap
                             (<["message" := AString "Challenge accepted and session started!"]>
                             (<["access_token" := token]> ∅))) |}
                end
            end
        end
  end.

(** The request [queryDeviceDataHistory] builds for a vehicle token and a
    bearer token. *)
Definition historyRequest (settings : Settings) (tokenID : Z)
    (startTime endTime bearer : string) : Request :=
  {| Method := "GET";
     URL := DeviceDataAPIBaseURL settings +:+ "/vehicle/" +:+ pretty tokenID
            +:+ "/history?startDate=" +:+ QueryEscape startTime
            +:+ "&endDate=" +:+ QueryEscape endTime;
     Header := [("Authorization", "Bearer " +:+ bearer)];
     Payload := NoBody |}.

(** The request of [HandleSubmitChallenge]. *)
Definition submitRequest (settings : Settings) (state signature : string) : Request :=
  {| Method := "POST";
     URL := SubmitChallengeURL settings;
     Header := [("Content-Type", "application/x-www-form-urlencoded")];
     Payload := FormBody [("client_id", ClientID settings);
                          ("domain", Domain settings);
                          ("grant_type", GrantType settings);
                          ("state", state);
                          ("signature", signature)] |}.

(** What [http.Post] gives [HandleSubmitChallenge]: the error of a URL that
    does not parse, or the answer of the network. *)
Definition submitOutcome (net : Request → roundTrip any) (settings : Settings)
    (state signature : string) : roundTrip any :=
  match urlParseError (SubmitChallengeURL settings) with
  | Some e => TransportErr e
  | None => net (submitRequest settings state signature)
  end.

(** The state after [http.Post]: the request is logged unless its URL did
    not parse. *)
Definition afterPost (settings : Settings) (state signature : string) (w : World) : World :=
  match urlParseError (SubmitChallengeURL settings) with
  | Some _ => w
  | None => sentAlso (submitRequest settings state signature) w
  end.

(** Serving one call: the state it leaves, and the trips a successful
    listing returned, each with the vehicle token it was listed for. *)
Definition serve (settings : Settings) (c : call) (w : World) : World * list (string * Z) :=
  match c with
  | ListTrips net tokenID sessionCookie now =>
      match queryTripsAPI net tokenID settings sessionCookie now w with
      | (Ok trips, w') => (w', (λ trip, (ID trip, tokenID)) <$> trips)
      | (_, w') => (w', [])
      end
  | MapDataForTrip net sessionCookie now tripID startTime endTime =>
      ((handleMapDataForTrip net sessionCookie now
          settings tripID startTime endTime w).2, [])
  | SubmitChallenge net state signature sessionID tSet tCookie =>
      ((HandleSubmitChallenge net settings state signature
          sessionID tSet tCookie w).2, [])
  | GetVehicles net local =>
      ((HandleGetVehicles net local settings w).2, [])
  end.

(** Serving a sequence of calls, with all the listed trips in the order
    they were listed. *)
Fixpoint process (settings : Settings) (cs : list call) (w : World) : World * list (string * Z) :=
  match cs with
  | [] => (w, [])
  | c :: cs' =>
      let '(w1, listed1) := serve settings c w in
      let '(w2, listed2) := process settings cs' w1 in
      (w2, (listed1 ++ listed2)%list)
  end.

(** [HandleGenerateChallenge], main.go. [address] is the form value; [more]
    holds the settings only this handler reads. *)
Definition HandleGenerateChallenge (net : Request → roundTrip ChallengeResponse)
    (settings : Settings) (more : ChallengeSettings) (address : string) : M HTTPResponse :=
  let formData := [("client_id", ClientID settings);
                   ("domain", Domain settings);
                   ("scope", Scope more);
                   ("response_type", ResponseType more);
                   ("address", address)] in
  let reqURL := AuthURL more in
  let* r := try (Post net reqURL "application/x-www-form-urlencoded" (FormBody formData)) in
  match r with
  | inl _ =>
      ret (reply StatusInternalServerError
             (SendString "Failed to make request to external service"))
  | inr resp =>
      match Body resp with
      | Unreadable _ =>
          ret (reply StatusInternalServerError
                 (SendString "Error reading external response"))
      | Undecodable _ =>
          ret (reply StatusInternalServerError
                 (SendString "Error processing response from external service"))
      | Decoded apiResp =>
          if decide (State apiResp = EmptyString ∨ Challenge apiResp = EmptyString)
          then ret (reply StatusInternalServerError
                      (SendString "State or Challenge incomplete from external service"))
          else ret (reply StatusOK (JSON (challengeJSON apiResp)))
      end
  end.

(** The request of [HandleGenerateChallenge]. *)
Definition challengeRequest (settings : Settings) (more : ChallengeSettings)
    (address : string) : Request :=
  {| Method := "POST";
     URL := AuthURL more;
     Header := [("Content-Type", "application/x-www-form-urlencoded")];
     Payload := FormBody [("client_id", ClientID settings);
                          ("domain", Domain settings);
                          ("scope", Scope more);
                          ("response_type", ResponseType more);
                          ("address", address)] |}.

(** What [http.Post] gives [HandleGenerateChallenge]. *)
Definition challengeOutcome (net : Request → roundTrip ChallengeResponse)
    (settings : Settings) (more : ChallengeSettings) (address : string)
    : roundTrip ChallengeResponse :=
  match urlParseError (AuthURL more) with
  | Some e => TransportErr e
  | None => net (challengeRequest settings more address)
  end.

(** The request [queryTripsAPI] builds. *)
Definition tripsRequest (settings : Settings) (tokenID : Z) (bearer : string) : Request :=
  {| Method := "GET";
     URL := TripsAPIBaseURL settings +:+ "/vehicle/" +:+ pretty tokenID +:+ "/trips";
     Header := [("Authorization", "Bearer " +:+ bearer)];
     Payload := NoBody |}.

(** The request [queryIdentityAPIForVehicles] builds. *)
Definition vehiclesRequest (settings : Settings) (ethAddress : string) : Request :=
  {| Method := "POST";
     URL := IdentityAPIURL settings;
     Header := [("Content-Type", "application/json")];
     Payload := GraphQLBody {| Query := graphqlQuery ethAddress |} |}.

(** Everything the server is asked: the calls of [call], and the challenge
    endpoint. *)
Inductive incoming :=
  | Core (c : call)
  | GenerateChallenge (net : Request → roundTrip ChallengeResponse)
      (more : ChallengeSettings) (address : string).

(** The state one incoming request leaves, and the state a sequence of
    them leaves. *)
Definition handle (settings : Settings) (r : incoming) (w : World) : World :=
  match r with
  | Core c => (serve settings c w).1
  | GenerateChallenge net more address =>
      (HandleGenerateChallenge net settings more address w).2
  end.

Definition handleAll (settings : Settings) (rs : list incoming) (w : World) : World :=
  foldl (λ w r, handle settings r w) w rs.

(** The session identifiers the submissions among the requests bring. *)
Definition sessionIDsOf (rs : list incoming) : list string :=
  omap (λ r, match r with
             | Core (SubmitChallenge _ _ _ sessionID _ _) => Some sessionID
             | _ => None
             end) rs.


(** * Properties *)

(** ** The telemetry sort *)

Lemma ltb_asym (s t : string) : String.ltb s t = true → String.ltb t s = false.
Proof.
unfold String.ltb. rewrite (String.compare_antisym t s).
destruct (String.compare s t); simpl; congruence.
Qed.

Lemma ltb_irrefl (s : string) : String.ltb s s = false.
Proof.
destruct (String.ltb s s) eqn:E; [|done].
pose proof (ltb_asym _ _ E). congruence.
Qed.

Lemma less_timestamps x y tx ty :
timestampOf x = Some tx → timestampOf y = Some ty →
less x y = Some (String.ltb tx ty).
Proof. intros Hx Hy. unfold less. by rewrite Hx, Hy. Qed.

(** The inner loop never panics on hits that carry timestamps. *)
Lemma insertBack_total x r :
hasTimestamp x → Forall hasTimestamp r → is_Some (insertBack x r).
Proof.
intros [tx Hx]. induction 1 as [|y r [ty Hy] _ IH]; simpl; [eauto|].
rewrite (less_timestamps _ _ _ _ Hx Hy). simpl.
destruct (String.ltb tx ty); [|eauto].
destruct IH as [r' ->]. simpl. eauto.
Qed.

Lemma insertBack_perm x r r' : insertBack x r = Some r' → x :: r ≡ₚ r'.
Proof.
revert r'. induction r as [|y r IH]; simpl; intros r' H.
{ by simplify_eq. }
destruct (less x y) as [[]|]; simplify_eq/=.
- destruct (insertBack x r) as [r0|]; simplify_eq/=.
  rewrite <- (IH r0 eq_refl). apply perm_swap.
- done.
Qed.

(** Moving [x] down only passes hits with a strictly larger timestamp, so
  the hits of any one timestamp keep their order. *)
Lemma insertBack_withTimestamp t x r r' :
insertBack x r = Some r' → withTimestamp t r' = withTimestamp t (x :: r).
Proof.
unfold withTimestamp. revert r'. induction r as [|y r IH]; simpl; intros r' H.
{ by simplify_eq. }
unfold less in H.
destruct (timestampOf x) as [tx|] eqn:Hx; simplify_eq/=.
destruct (timestampOf y) as [ty|] eqn:Hy; simplify_eq/=.
destruct (String.ltb tx ty) eqn:Hlt; simplify_eq/=; [|done].
destruct (insertBack x r) as [r0|]; simplify_eq/=.
rewrite !filter_cons, (IH r0 eq_refl), !filter_cons, Hx, Hy.
repeat case_decide; simplify_eq; try done.
by rewrite ltb_irrefl in Hlt.
Qed.

Lemma insertBack_HdRel x y r r' :
insertBack x r = Some r' →
HdRel (flip notAfter) y r → flip notAfter y x → HdRel (flip notAfter) y r'.
Proof.
intros H Hhd Hyx. destruct r as [|z r]; simpl in H.
{ simplify_eq. by constructor. }
destruct (less x z) as [[]|]; simplify_eq/=.
- destruct (insertBack x r); simplify_eq/=. constructor. by inv Hhd.
- by constructor.
Qed.

(** The inner loop keeps the prefix sorted (here: descending, as the prefix
  is held from its last element down). *)
Lemma insertBack_sorted x r r' :
insertBack x r = Some r' →
Sorted (flip notAfter) r → Sorted (flip notAfter) r'.
Proof.
revert r'. induction r as [|y r IH]; simpl; intros r' H Hs.
{ simplify_eq. repeat constructor. }
unfold less in H.
destruct (timestampOf x) as [tx|] eqn:Hx; simplify_eq/=.
destruct (timestampOf y) as [ty|] eqn:Hy; simplify_eq/=.
inv Hs.
destruct (String.ltb tx ty) eqn:Hlt; simplify_eq/=.
- destruct (insertBack x r) as [r0|] eqn:Hr0; simplify_eq/=.
  constructor; [by apply IH|].
  eapply insertBack_HdRel; [done..|].
  unfold flip, notAfter. rewrite Hx, Hy. by apply ltb_asym.
- constructor; [by constructor|]. constructor.
  unfold flip, notAfter. by rewrite Hx, Hy.
Qed.

Lemma Sorted_flip_reverse (r : list any) :
Sorted (flip notAfter) r → ascending (reverse r).
Proof. intros H. apply Sorted_reverse in H. exact H. Qed.

Lemma insertionSort_spec sortedRev rest :
Forall hasTimestamp sortedRev → Forall hasTimestamp rest →
Sorted (flip notAfter) sortedRev →
∃ out, insertionSort sortedRev rest = Some out
       ∧ (reverse sortedRev ++ rest)%list ≡ₚ out
       ∧ ascending out
       ∧ ∀ t, withTimestamp t out = withTimestamp t (reverse sortedRev ++ rest)%list.
Proof.
intros Hsr Hrest. revert sortedRev Hsr.
induction Hrest as [|x rest Hx Hrest IH]; intros sr Hsr Hsorted; simpl.
- exists (reverse sr). rewrite app_nil_r.
  split_and!; [done|done|by apply Sorted_flip_reverse|done].
- destruct (insertBack_total x sr Hx Hsr) as [acc Hacc]. rewrite Hacc. simpl.
  pose proof (insertBack_perm _ _ _ Hacc) as Hperm.
  destruct (IH acc) as (out & Hout & Hp & Hasc & Hst).
  { by rewrite <- Hperm; constructor. }
  { by eapply insertBack_sorted. }
  exists out. split_and!; [done| |done|].
  + rewrite <- Hp, !reverse_Permutation, <- Hperm. simpl.
    symmetry. apply Permutation_middle.
  + intros t. rewrite Hst. unfold withTimestamp.
    rewrite !filter_app, !filter_reverse.
    pose proof (insertBack_withTimestamp t _ _ _ Hacc) as Hw.
    unfold withTimestamp in Hw. rewrite Hw, !filter_cons.
    case_decide; by rewrite ?reverse_cons, <- ?app_assoc.
Qed.

Lemma Sorted_middle (R : relation any) l1 y x l2 :
Sorted R (l1 ++ y :: x :: l2)%list → R y x.
Proof.
induction l1 as [|a l1 IH]; simpl; intros H; inv H.
- by inv H3.
- by apply IH.
Qed.

(** On a slice that is already ascending no swap happens. *)
Lemma insertionSort_ascending sortedRev rest :
ascending (reverse sortedRev ++ rest)%list →
insertionSort sortedRev rest = Some (reverse sortedRev ++ rest)%list.
Proof.
revert sortedRev. induction rest as [|x rest IH]; intros sr Hasc; simpl.
{ by rewrite app_nil_r. }
assert (insertBack x sr = Some (x :: sr)) as ->.
{ destruct sr as [|y r]; [done|]. simpl.
  rewrite reverse_cons, <- app_assoc in Hasc. simpl in Hasc.
  apply Sorted_middle in Hasc. unfold notAfter in Hasc. unfold less.
  destruct (timestampOf y), (timestampOf x); try done. simpl.
  by rewrite Hasc. }
simpl. rewrite IH; rewrite reverse_cons, <- app_assoc; done.
Qed.

Lemma SliceStable_sorts (hits : list any) :
  Forall hasTimestamp hits →
  ∃ out, SliceStable hits = Some out
         ∧ hits ≡ₚ out
         ∧ ascending out
         ∧ (∀ t, withTimestamp t out = withTimestamp t hits).
Proof.
  intros H. apply (insertionSort_spec [] hits); [constructor|done|constructor].
Qed.

(** C5. [sort.SliceStable] with the timestamp comparison leaves an ascending
    sequence of hits as it is, and on hits that carry timestamps it returns
    a rearrangement of the input that is ascending by timestamp string under
    the lexicographic order, in which the hits of any one timestamp keep the
    relative order they had in the input; sorting the result again gives
    the result. *)
Theorem SliceStable_ascending_stable (hits : list any) :
  (ascending hits → SliceStable hits = Some hits) ∧
  (Forall hasTimestamp hits →
   ∃ out, SliceStable hits = Some out
          ∧ hits ≡ₚ out
          ∧ ascending out
          ∧ (∀ t, withTimestamp t out = withTimestamp t hits)
          ∧ SliceStable out = Some out).
Proof.
  split.
  - intros H. by apply (insertionSort_ascending [] hits).
  - intros H. destruct (SliceStable_sorts hits H) as (out & Hout & Hp & Hasc & Hst).
    exists out. split_and!; try done.
    by apply (insertionSort_ascending [] out).
Qed.

(** ** The handlers *)

Lemma length_append (s t : string) :
String.length (s +:+ t) = (String.length s + String.length t)%nat.
Proof. induction s as [|a s IH]; simpl; [done|]. by rewrite IH. Qed.

(** The key of a privilege token is never the bare session identifier. *)
Lemma privilegeTokenKey_ne (sessionID : string) :
"privilegeToken_" +:+ sessionID ≠ sessionID.
Proof.
intros H. apply (f_equal String.length) in H.
rewrite length_append in H. simpl in H. lia.
Qed.

Lemma queryTripsAPI_miss net tokenID settings sessionCookie now w :
  cacheGet ("privilegeToken_" +:+ sessionCookie) now (CacheInstance w) = None →
  queryTripsAPI net tokenID settings sessionCookie now w
  = (Err "privilege token not found in cache", w).
Proof. intros H. unfold queryTripsAPI, bind, getWorld. by rewrite H. Qed.

Lemma queryDeviceDataHistory_miss net tokenID startTime endTime settings sessionCookie now w :
  cacheGet ("privilegeToken_" +:+ sessionCookie) now (CacheInstance w) = None →
  queryDeviceDataHistory net tokenID startTime endTime settings sessionCookie now w
  = (Err "privilege token not found in cache", w).
Proof. intros H. unfold queryDeviceDataHistory, bind, getWorld. by rewrite H. Qed.

(** With the trip in the index, [handleMapDataForTrip] is
    [queryDeviceDataHistory] for the recorded vehicle token followed by
    the conversion of its outcome into a response. *)
Lemma handleMapDataForTrip_indexed net sessionCookie now settings tripID startTime endTime
    tokenID w :
  tripIDToTokenIDMap w !! tripID = Some tokenID →
  handleMapDataForTrip net sessionCookie now settings tripID startTime endTime w
  = match queryDeviceDataHistory net tokenID startTime endTime settings sessionCookie now w with
    | (Ok locations, w') =>
        (Ok (reply StatusOK
               (GeoJSON (convertToGeoJSON locations tripID startTime endTime))), w')
    | (Err err, w') =>
        (Ok (reply StatusInternalServerError
               (JSON (AMap {[ "error" :=
                   AString ("Failed to fetch historical data: " +:+ err) ]}))), w')
    | (Panic, w') => (Panic, w')
    end.
Proof.
  intros H. unfold handleMapDataForTrip, bind, getWorld, try. rewrite H.
  by destruct (queryDeviceDataHistory _ _ _ _ _ _ _ w) as [[locations|err|] w'].
Qed.

Lemma handleMapDataForTrip_unknown net sessionCookie now settings tripID startTime endTime w :
  tripIDToTokenIDMap w !! tripID = None →
  handleMapDataForTrip net sessionCookie now settings tripID startTime endTime w
  = (Ok (reply StatusNotFound (SendString "Trip not found")), w).
Proof.
  intros H. unfold handleMapDataForTrip, bind, getWorld. by rewrite H.
Qed.

(** C8. When the cache holds no live privilege token under the key of the
    session cookie, [queryTripsAPI] and [queryDeviceDataHistory] return
    the error "privilege token not found in cache" and
    [handleMapDataForTrip] answers with a failure (trip not found, or the
    error of the failed lookup); the state, and with it the log of
    outbound requests, is left as it was: no request is sent. *)
Theorem cache_miss_sends_nothing (sessionCookie : string) (now : Z) (w : World) :
  cacheGet ("privilegeToken_" +:+ sessionCookie) now (CacheInstance w) = None →
  (∀ net tokenID settings,
     queryTripsAPI net tokenID settings sessionCookie now w
     = (Err "privilege token not found in cache", w))
  ∧ (∀ net tokenID startTime endTime settings,
     queryDeviceDataHistory net tokenID startTime endTime settings sessionCookie now w
     = (Err "privilege token not found in cache", w))
  ∧ (∀ net settings tripID startTime endTime,
     ∃ resp,
       handleMapDataForTrip net sessionCookie now settings tripID startTime endTime w
       = (Ok resp, w)
       ∧ (resp = reply StatusNotFound (SendString "Trip not found")
          ∨ resp = reply StatusInternalServerError
                     (JSON (AMap {[ "error" := AString
                        "Failed to fetch historical data: privilege token not found in cache" ]})))).
Proof.
  intros H. split_and!.
  - intros. by apply queryTripsAPI_miss.
  - intros. by apply queryDeviceDataHistory_miss.
  - intros net settings tripID startTime endTime.
    destruct (tripIDToTokenIDMap w !! tripID) as [tokenID|] eqn:Hidx.
    + rewrite (handleMapDataForTrip_indexed _ _ _ _ _ _ _ _ _ Hidx).
      rewrite queryDeviceDataHistory_miss by done. eauto.
    + rewrite handleMapDataForTrip_unknown by done. eauto.
Qed.

(** Unfolding of the monad's operations. *)
Ltac unfold_M :=
  unfold Post, NewRequest, assert in *;
  unfold bind, ret, fail, panic, try, getWorld, setIndex, setCache, send in *;
  simpl in *.

(** *** The trip index *)

Lemma recordTrips_listed tokenID trips idx trip :
  trip ∈ trips → recordTrips tokenID trips idx !! ID trip = Some tokenID.
Proof.
  unfold recordTrips. revert idx.
  induction trips as [|t trips IH] using rev_ind; intros idx Hin.
  { by apply elem_of_nil in Hin. }
  rewrite foldl_app. simpl.
  apply elem_of_app in Hin as [Hin|Hin%list_elem_of_singleton].
  - destruct (decide (ID t = ID trip)) as [->|Hne].
    + apply lookup_insert_eq.
    + rewrite lookup_insert_ne by done. by apply IH.
  - subst. apply lookup_insert_eq.
Qed.

Lemma recordTrips_other tokenID trips idx id :
  id ∉ ID <$> trips → recordTrips tokenID trips idx !! id = idx !! id.
Proof.
  unfold recordTrips. revert idx.
  induction trips as [|t trips IH]; intros idx Hnin; simpl; [done|].
  rewrite fmap_cons, not_elem_of_cons in Hnin. destruct Hnin as [Hne Hnin].
  rewrite IH by done. by rewrite lookup_insert_ne.
Qed.

(** The loop of [queryTripsAPI] is a left fold of insertions, so a later
    listing of a trip id overwrites an earlier one. *)
Lemma foldl_insert_list_to_map (l : list (string * Z)) (m : gmap string Z) :
  foldl (λ m kv, <[kv.1 := kv.2]> m) m l = list_to_map (reverse l) ∪ m.
Proof.
  revert m. induction l as [|[k v] l IH]; intros m; simpl.
  { by rewrite (left_id_L ∅ (∪)). }
  rewrite IH, reverse_cons, list_to_map_app. simpl.
  rewrite <- (assoc_L (∪)). f_equal.
  by rewrite insert_empty, <- insert_union_singleton_l.
Qed.

Lemma recordTrips_foldl tokenID trips idx :
  recordTrips tokenID trips idx
  = foldl (λ m kv, <[kv.1 := kv.2]> m) idx ((λ trip, (ID trip, tokenID)) <$> trips).
Proof.
  unfold recordTrips. revert idx.
  induction trips as [|t trips IH]; intros idx; simpl; [done|]. by rewrite IH.
Qed.

(** What [queryTripsAPI] does to the state: the cache is only read, and
    the index is written after a successful listing only. *)
Lemma queryTripsAPI_state net tokenID settings sessionCookie now w r w' :
  queryTripsAPI net tokenID settings sessionCookie now w = (r, w') →
  CacheInstance w' = CacheInstance w
  ∧ tripIDToTokenIDMap w'
    = match r with
      | Ok trips => recordTrips tokenID trips (tripIDToTokenIDMap w)
      | _ => tripIDToTokenIDMap w
      end.
Proof.
  unfold queryTripsAPI. unfold_M. intros H.
  repeat (case_match; simplify_eq/=); done.
Qed.

Lemma queryDeviceDataHistory_state net tokenID startTime endTime settings sessionCookie now
    w r w' :
  queryDeviceDataHistory net tokenID startTime endTime settings sessionCookie now w = (r, w') →
  CacheInstance w' = CacheInstance w ∧ tripIDToTokenIDMap w' = tripIDToTokenIDMap w.
Proof.
  unfold queryDeviceDataHistory. unfold_M. intros H.
  repeat (case_match; simplify_eq/=); done.
Qed.

Lemma handleMapDataForTrip_state net sessionCookie now settings tripID startTime endTime
    w r w' :
  handleMapDataForTrip net sessionCookie now settings tripID startTime endTime w = (r, w') →
  CacheInstance w' = CacheInstance w ∧ tripIDToTokenIDMap w' = tripIDToTokenIDMap w.
Proof.
  intros H. destruct (tripIDToTokenIDMap w !! tripID) as [tokenID|] eqn:Hidx.
  - rewrite (handleMapDataForTrip_indexed _ _ _ _ _ _ _ _ _ Hidx) in H.
    destruct (queryDeviceDataHistory _ _ _ _ _ _ _ w) as [r0 w0] eqn:Hq.
    apply queryDeviceDataHistory_state in Hq.
    destruct r0; simplify_eq/=; done.
  - rewrite handleMapDataForTrip_unknown in H by done. by simplify_eq/=.
Qed.

Lemma HandleGetVehicles_state net local settings w r w' :
  HandleGetVehicles net local settings w = (r, w') →
  CacheInstance w' = CacheInstance w ∧ tripIDToTokenIDMap w' = tripIDToTokenIDMap w.
Proof.
  unfold HandleGetVehicles, queryIdentityAPIForVehicles. unfold_M. intros H.
  repeat (case_match; simplify_eq/=); done.
Qed.

Lemma HandleSubmitChallenge_index net settings state signature sessionID tSet tCookie w r w' :
  HandleSubmitChallenge net settings state signature sessionID tSet tCookie w = (r, w') →
  tripIDToTokenIDMap w' = tripIDToTokenIDMap w.
Proof.
  unfold HandleSubmitChallenge. unfold_M. intros H.
  repeat (case_match; simplify_eq/=); done.
Qed.

Lemma serve_index settings c w :
  tripIDToTokenIDMap (serve settings c w).1
  = foldl (λ m kv, <[kv.1 := kv.2]> m) (tripIDToTokenIDMap w) (serve settings c w).2.
Proof.
  destruct c; simpl.
  - destruct (queryTripsAPI _ _ _ _ _ w) as [r w'] eqn:Hq.
    apply queryTripsAPI_state in Hq as [_ Hidx].
    destruct r; simpl in *; rewrite Hidx; first [apply recordTrips_foldl|done].
  - destruct (handleMapDataForTrip _ _ _ _ _ _ _ w) as [r w'] eqn:Hq. simpl.
    by apply handleMapDataForTrip_state in Hq as [_ ->].
  - destruct (HandleSubmitChallenge _ _ _ _ _ _ _ w) as [r w'] eqn:Hq. simpl.
    by apply HandleSubmitChallenge_index in Hq as ->.
  - destruct (HandleGetVehicles _ _ _ w) as [r w'] eqn:Hq. simpl.
    by apply HandleGetVehicles_state in Hq as [_ ->].
Qed.

Lemma process_index settings cs w :
  tripIDToTokenIDMap (process settings cs w).1
  = foldl (λ m kv, <[kv.1 := kv.2]> m) (tripIDToTokenIDMap w) (process settings cs w).2.
Proof.
  revert w. induction cs as [|c cs IH]; intros w; simpl; [done|].
  pose proof (serve_index settings c w) as Hs.
  destruct (serve settings c w) as [w1 listed1]. simpl in Hs.
  specialize (IH w1). destruct (process settings cs w1) as [w2 listed2]. simpl in *.
  by rewrite foldl_app, <- Hs.
Qed.

Lemma handleMapDataForTrip_NotFound_iff net sessionCookie now settings tripID startTime endTime w :
  (∃ resp w',
     handleMapDataForTrip net sessionCookie now settings tripID startTime endTime w
     = (Ok resp, w') ∧ Status resp = StatusNotFound)
  ↔ tripIDToTokenIDMap w !! tripID = None.
Proof.
  split.
  - intros (resp & w' & H & Hst).
    destruct (tripIDToTokenIDMap w !! tripID) as [tokenID|] eqn:Hidx; [|done].
    rewrite (handleMapDataForTrip_indexed _ _ _ _ _ _ _ _ _ Hidx) in H.
    destruct (queryDeviceDataHistory _ _ _ _ _ _ _ w) as [[locations|err|] w0];
      simplify_eq/=.
  - intros Hidx. rewrite handleMapDataForTrip_unknown by done.
    eexists _, _. split; [done|]. done.
Qed.

(** C7. [handleMapDataForTrip] answers "Trip not found" (404) exactly when
    the trip id is absent from the trip index. A successful [queryTripsAPI]
    for a vehicle token leaves every returned trip id mapped to that token
    and every other id as it was, and [handleMapDataForTrip] for an indexed
    id fetches the history of the recorded token. Over the lifetime of a
    process, from its start through any sequence of calls, the index is
    the map of the listed trips in which the latest listing of an id wins,
    so the 404 is given exactly for the ids no listing has returned. *)
Theorem trip_index_resolution (settings : Settings) :
  (∀ net sessionCookie now tripID startTime endTime w,
     (∃ resp w',
        handleMapDataForTrip net sessionCookie now settings tripID startTime endTime w
        = (Ok resp, w') ∧ Status resp = StatusNotFound)
     ↔ tripIDToTokenIDMap w !! tripID = None)
  ∧ (∀ net tokenID sessionCookie now w trips w',
     queryTripsAPI net tokenID settings sessionCookie now w = (Ok trips, w') →
     (∀ trip, trip ∈ trips → tripIDToTokenIDMap w' !! ID trip = Some tokenID)
     ∧ (∀ id, id ∉ ID <$> trips →
          tripIDToTokenIDMap w' !! id = tripIDToTokenIDMap w !! id))
  ∧ (∀ net sessionCookie now tripID startTime endTime tokenID w,
     tripIDToTokenIDMap w !! tripID = Some tokenID →
     handleMapDataForTrip net sessionCookie now settings tripID startTime endTime w
     = match queryDeviceDataHistory net tokenID startTime endTime settings
               sessionCookie now w with
       | (Ok locations, w') =>
           (Ok (reply StatusOK
                  (GeoJSON (convertToGeoJSON locations tripID startTime endTime))), w')
       | (Err err, w') =>
           (Ok (reply StatusInternalServerError
                  (JSON (AMap {[ "error" :=
                      AString ("Failed to fetch historical data: " +:+ err) ]}))), w')
       | (Panic, w') => (Panic, w')
       end)
  ∧ (∀ cs,
     tripIDToTokenIDMap (process settings cs boot).1
     = list_to_map (reverse (process settings cs boot).2)
     ∧ ∀ net sessionCookie now tripID startTime endTime,
         (∃ resp w',
            handleMapDataForTrip net sessionCookie now settings tripID startTime endTime
              (process settings cs boot).1
            = (Ok resp, w') ∧ Status resp = StatusNotFound)
         ↔ tripID ∉ (process settings cs boot).2.*1).
Proof.
  split_and!.
  - intros. apply handleMapDataForTrip_NotFound_iff.
  - intros net tokenID sessionCookie now w trips w' H.
    apply queryTripsAPI_state in H as [_ ->]. split.
    + intros trip Hin. by apply recordTrips_listed.
    + intros id Hnin. by apply recordTrips_other.
  - intros. by apply handleMapDataForTrip_indexed.
  - intros cs.
    assert (tripIDToTokenIDMap (process settings cs boot).1
            = list_to_map (reverse (process settings cs boot).2)) as Hidx.
    { rewrite process_index, foldl_insert_list_to_map. simpl.
      by rewrite (right_id_L ∅ (∪)). }
    split; [done|]. intros.
    rewrite handleMapDataForTrip_NotFound_iff, Hidx.
    rewrite <- not_elem_of_list_to_map, fmap_reverse, elem_of_reverse. done.
Qed.

(** *** The telemetry pipeline *)

Lemma insertBack_nonempty x r r' : insertBack x r = Some r' → r' ≠ [].
Proof.
  destruct r as [|y r]; simpl; intros H; [by simplify_eq|].
  destruct (less x y) as [[]|]; simplify_eq/=; [|done].
  destruct (insertBack x r); by simplify_eq/=.
Qed.

Lemma insertionSort_perm sortedRev rest out :
  insertionSort sortedRev rest = Some out → (reverse sortedRev ++ rest)%list ≡ₚ out.
Proof.
  revert sortedRev. induction rest as [|x rest IH]; intros sr H; simpl in H.
  { simplify_eq. by rewrite app_nil_r. }
  destruct (insertBack x sr) as [acc|] eqn:Hacc; simplify_eq/=.
  rewrite <- (IH _ H), !reverse_Permutation, <- (insertBack_perm _ _ _ Hacc). simpl.
  symmetry. apply Permutation_middle.
Qed.

(** Once the sorted prefix is not empty, every further hit is compared, and
    a hit without a timestamp makes the comparison panic. *)
Lemma insertionSort_panics sortedRev rest :
  sortedRev ≠ [] → Exists (λ hit, timestampOf hit = None) rest →
  insertionSort sortedRev rest = None.
Proof.
  intros Hsr Hex. revert sortedRev Hsr.
  induction rest as [|x rest IH]; intros sr Hsr; [by inv Hex|]. simpl.
  destruct (insertBack x sr) as [acc|] eqn:Hacc; [|done]. simpl.
  inv Hex.
  - destruct sr as [|y r]; [done|]. simpl in Hacc. unfold less in Hacc.
    by rewrite H0 in Hacc.
  - apply IH; [done|]. by eapply insertBack_nonempty.
Qed.

Lemma SliceStable_panics hits :
  (2 ≤ length hits)%nat → Exists (λ hit, timestampOf hit = None) hits →
  SliceStable hits = None.
Proof.
  destruct hits as [|x0 [|x1 rest]]; simpl; [lia..|]. intros _ Hex.
  unfold SliceStable. simpl.
  destruct (timestampOf x0) as [t0|] eqn:H0.
  - apply (insertionSort_panics [x0] (x1 :: rest)); [done|].
    inv Hex; first [congruence|done].
  - unfold less. rewrite H0. by destruct (timestampOf x1).
Qed.

Lemma extractLocationData_panics hits :
  Exists (λ hit, locationOf hit = None) hits → extractLocationData hits = None.
Proof.
  intros Hex. unfold extractLocationData.
  destruct (mapM locationOf hits) as [locations|] eqn:Hm; [|done].
  assert (is_Some (mapM locationOf hits)) as Hs by eauto.
  apply mapM_is_Some_1 in Hs. rewrite Forall_forall in Hs.
  apply Exists_exists in Hex as (hit & Hin & Hnone).
  destruct (Hs hit Hin) as [loc Hloc]. simpl in Hloc. congruence.
Qed.

(** [queryDeviceDataHistory] once the privilege token is found: the request
    goes out, and the outcome follows from the answer. *)
Lemma queryDeviceDataHistory_sent net tokenID startTime endTime settings sessionCookie now
    bearer w :
  cacheGet ("privilegeToken_" +:+ sessionCookie) now (CacheInstance w)
  = Some (AString bearer) →
  urlParseError (URL (historyRequest settings tokenID startTime endTime bearer)) = None →
  queryDeviceDataHistory net tokenID startTime endTime settings sessionCookie now w
  = let req := historyRequest settings tokenID startTime endTime bearer in
    (match net req with
     | TransportErr e => Err e
     | Resp resp =>
         match Body resp with
         | Unreadable e | Undecodable e => Err e
         | Decoded v =>
             match unmarshalMap v with
             | inl e => Err e
             | inr result =>
                 match hits ← hitsIn result; sorted ← SliceStable hits;
                       extractLocationData sorted with
                 | Some locations => Ok locations
                 | None => Panic
                 end
             end
         end
     end, sentAlso req w).
Proof.
  intros Hc Hu. unfold queryDeviceDataHistory, historyRequest in *. unfold_M.
  rewrite Hc, Hu. simpl. unfold HeaderSet, sentAlso. simpl.
  repeat (case_match; simplify_eq/=); done.
Qed.

Lemma handleMapDataForTrip_decoded net sessionCookie now settings tripID startTime endTime
    tokenID bearer status result w :
  tripIDToTokenIDMap w !! tripID = Some tokenID →
  cacheGet ("privilegeToken_" +:+ sessionCookie) now (CacheInstance w)
  = Some (AString bearer) →
  urlParseError (URL (historyRequest settings tokenID startTime endTime bearer)) = None →
  net (historyRequest settings tokenID startTime endTime bearer)
  = Resp {| StatusCode := status; Body := Decoded (AMap result) |} →
  handleMapDataForTrip net sessionCookie now settings tripID startTime endTime w
  = (match hits ← hitsIn result; sorted ← SliceStable hits; extractLocationData sorted with
     | Some locations =>
         Ok (reply StatusOK (GeoJSON (convertToGeoJSON locations tripID startTime endTime)))
     | None => Panic
     end, sentAlso (historyRequest settings tokenID startTime endTime bearer) w).
Proof.
  intros Hidx Hc Hu Hnet.
  rewrite (handleMapDataForTrip_indexed _ _ _ _ _ _ _ _ _ Hidx).
  rewrite (queryDeviceDataHistory_sent _ _ _ _ _ _ _ _ _ Hc Hu). simpl.
  rewrite Hnet. simpl.
  by destruct (hits ← hitsIn result; sorted ← SliceStable hits; extractLocationData sorted).
Qed.

(** C6. With the trip indexed, a privilege token cached and a telemetry
    document whose hits all carry a timestamp and a position,
    [handleMapDataForTrip] answers 200 with the path whose coordinates are,
    one for one and in that order, the [longitude, latitude] pairs of the
    hits sorted ascending by timestamp. For the hits with timestamps
    2024-01-01T00:00:02Z and 2024-01-01T00:00:01Z and positions (10,20) and
    (11,21), the coordinates are [[21,11],[20,10]]. *)
Theorem getTripPath_sorted_coordinates
    net sessionCookie now settings tripID startTime endTime tokenID bearer w :
  tripIDToTokenIDMap w !! tripID = Some tokenID →
  cacheGet ("privilegeToken_" +:+ sessionCookie) now (CacheInstance w)
  = Some (AString bearer) →
  urlParseError (URL (historyRequest settings tokenID startTime endTime bearer)) = None →
  (∀ status result hits,
     net (historyRequest settings tokenID startTime endTime bearer)
     = Resp {| StatusCode := status; Body := Decoded (AMap result) |} →
     hitsIn result = Some hits →
     Forall hasTimestamp hits → Forall hasLocation hits →
     ∃ sorted locations,
       SliceStable hits = Some sorted
       ∧ hits ≡ₚ sorted
       ∧ ascending sorted
       ∧ (∀ t, withTimestamp t sorted = withTimestamp t hits)
       ∧ Forall2 (λ hit loc, locationOf hit = Some loc) sorted locations
       ∧ handleMapDataForTrip net sessionCookie now settings tripID startTime endTime w
         = (Ok (reply StatusOK
                  (GeoJSON (convertToGeoJSON locations tripID startTime endTime))),
            sentAlso (historyRequest settings tokenID startTime endTime bearer) w)
       ∧ coordinatesOf
           (reply StatusOK (GeoJSON (convertToGeoJSON locations tripID startTime endTime)))
         = Some ((λ loc, [Longitude loc; Latitude loc]) <$> locations))
  ∧ (∀ status,
     net (historyRequest settings tokenID startTime endTime bearer)
     = Resp {| StatusCode := status;
               Body := Decoded (AMap (telemetryDoc
                 [sampleHit 10 20 "2024-01-01T00:00:02Z";
                  sampleHit 11 21 "2024-01-01T00:00:01Z"])) |} →
     ∃ resp,
       handleMapDataForTrip net sessionCookie now settings tripID startTime endTime w
       = (Ok resp, sentAlso (historyRequest settings tokenID startTime endTime bearer) w)
       ∧ Status resp = StatusOK
       ∧ coordinatesOf resp = Some [[21%float; 11%float]; [20%float; 10%float]]).
Proof.
  intros Hidx Hc Hu. split.
  - intros status result hits Hnet Hhits Hts Hloc.
    destruct (SliceStable_sorts hits Hts) as (sorted & Hsorted & Hperm & Hasc & Hst).
    assert (is_Some (mapM locationOf sorted)) as [locations Hlocs].
    { apply mapM_is_Some_2. by rewrite <- Hperm. }
    exists sorted, locations. split_and!; try done.
    + by apply mapM_Some_1.
    + rewrite (handleMapDataForTrip_decoded _ _ _ _ _ _ _ _ _ _ _ _ Hidx Hc Hu Hnet).
      rewrite Hhits. simpl. rewrite Hsorted. simpl.
      unfold extractLocationData. by rewrite Hlocs.
  - intros status Hnet.
    rewrite (handleMapDataForTrip_decoded _ _ _ _ _ _ _ _ _ _ _ _ Hidx Hc Hu Hnet).
    eexists. split_and!; [vm_compute; reflexivity|done..].
Qed.

(** [handleMapDataForTrip] on any body that is JSON text: the type error of
    [json.Unmarshal] is answered as an error, everything after it is not
    checked. *)
Lemma handleMapDataForTrip_document net sessionCookie now settings tripID startTime endTime
    tokenID bearer status v w :
  tripIDToTokenIDMap w !! tripID = Some tokenID →
  cacheGet ("privilegeToken_" +:+ sessionCookie) now (CacheInstance w)
  = Some (AString bearer) →
  urlParseError (URL (historyRequest settings tokenID startTime endTime bearer)) = None →
  net (historyRequest settings tokenID startTime endTime bearer)
  = Resp {| StatusCode := status; Body := Decoded v |} →
  handleMapDataForTrip net sessionCookie now settings tripID startTime endTime w
  = (match unmarshalMap v with
     | inl e =>
         Ok (reply StatusInternalServerError
               (JSON (AMap {[ "error" :=
                   AString ("Failed to fetch historical data: " +:+ e) ]})))
     | inr result =>
         match hits ← hitsIn result; sorted ← SliceStable hits;
               extractLocationData sorted with
         | Some locations =>
             Ok (reply StatusOK
                   (GeoJSON (convertToGeoJSON locations tripID startTime endTime)))
         | None => Panic
         end
     end, sentAlso (historyRequest settings tokenID startTime endTime bearer) w).
Proof.
  intros Hidx Hc Hu Hnet.
  rewrite (handleMapDataForTrip_indexed _ _ _ _ _ _ _ _ _ Hidx).
  rewrite (queryDeviceDataHistory_sent _ _ _ _ _ _ _ _ _ Hc Hu). simpl.
  rewrite Hnet. simpl. destruct (unmarshalMap v) as [e|result]; [done|].
  by destruct (hits ← hitsIn result; sorted ← SliceStable hits; extractLocationData sorted).
Qed.

(** C4, where the code falls short of it. With the trip indexed and a
    privilege token cached, take any answer of the telemetry service whose
    body is JSON text. A body that is neither an object nor null is
    reported as an error, a 500 with the text of the type error. But on an
    object or null, a missing or ill-typed [hits.hits] array (the null
    body included), a hit without a numeric [data.latitude] or
    [data.longitude], or, among two or more hits, a hit without a string
    [data.timestamp] makes the handler panic in an unchecked type
    assertion, where the claim asks for an error reported to the caller;
    and a single hit is converted into a path whether or not it has a
    timestamp, where the claim asks for an error too. No partial
    coordinate list is returned in any of these cases. *)
Theorem malformed_telemetry_panics
    net sessionCookie now settings tripID startTime endTime tokenID bearer status v w :
  tripIDToTokenIDMap w !! tripID = Some tokenID →
  cacheGet ("privilegeToken_" +:+ sessionCookie) now (CacheInstance w)
  = Some (AString bearer) →
  urlParseError (URL (historyRequest settings tokenID startTime endTime bearer)) = None →
  net (historyRequest settings tokenID startTime endTime bearer)
  = Resp {| StatusCode := status; Body := Decoded v |} →
  (∀ e, unmarshalMap v = inl e →
     handleMapDataForTrip net sessionCookie now settings tripID startTime endTime w
     = (Ok (reply StatusInternalServerError
              (JSON (AMap {[ "error" :=
                  AString ("Failed to fetch historical data: " +:+ e) ]}))),
        sentAlso (historyRequest settings tokenID startTime endTime bearer) w))
  ∧ (∀ result, unmarshalMap v = inr result →
     hitsIn result = None
     ∨ (∃ hits, hitsIn result = Some hits
                ∧ (Exists (λ hit, locationOf hit = None) hits
                   ∨ ((2 ≤ length hits)%nat
                      ∧ Exists (λ hit, timestampOf hit = None) hits))) →
     handleMapDataForTrip net sessionCookie now settings tripID startTime endTime w
     = (Panic, sentAlso (historyRequest settings tokenID startTime endTime bearer) w))
  ∧ (∀ result hit location,
       unmarshalMap v = inr result →
       hitsIn result = Some [hit] → locationOf hit = Some location →
       handleMapDataForTrip net sessionCookie now settings tripID startTime endTime w
       = (Ok (reply StatusOK
                (GeoJSON (convertToGeoJSON [location] tripID startTime endTime))),
          sentAlso (historyRequest settings tokenID startTime endTime bearer) w)).
Proof.
  intros Hidx Hc Hu Hnet.
  rewrite (handleMapDataForTrip_document _ _ _ _ _ _ _ _ _ _ _ _ Hidx Hc Hu Hnet).
  split_and!.
  - by intros e ->.
  - intros result -> [Hnone|(hits & Hhits & Hbad)].
    { by rewrite Hnone. }
    rewrite Hhits. simpl.
    destruct (SliceStable hits) as [sorted|] eqn:Hsorted; simpl; [|done].
    destruct Hbad as [Hloc|[Hlen Hts]].
    + rewrite extractLocationData_panics; [done|].
      apply insertionSort_perm in Hsorted. simpl in Hsorted.
      by rewrite <- Hsorted.
    + by rewrite SliceStable_panics in Hsorted.
  - intros result hit location -> Hhits Hloc. rewrite Hhits. simpl.
    unfold extractLocationData. simpl. by rewrite Hloc.
Qed.

(** A telemetry document without hits gives the path without points. *)
Lemma getTripPath_no_hits net sessionCookie now settings tripID startTime endTime
    tokenID bearer status w :
  tripIDToTokenIDMap w !! tripID = Some tokenID →
  cacheGet ("privilegeToken_" +:+ sessionCookie) now (CacheInstance w)
  = Some (AString bearer) →
  urlParseError (URL (historyRequest settings tokenID startTime endTime bearer)) = None →
  net (historyRequest settings tokenID startTime endTime bearer)
  = Resp {| StatusCode := status; Body := Decoded (AMap (telemetryDoc [])) |} →
  handleMapDataForTrip net sessionCookie now settings tripID startTime endTime w
  = (Ok (reply StatusOK (GeoJSON (convertToGeoJSON [] tripID startTime endTime))),
     sentAlso (historyRequest settings tokenID startTime endTime bearer) w).
Proof.
  intros Hidx Hc Hu Hnet.
  by rewrite (handleMapDataForTrip_decoded _ _ _ _ _ _ _ _ _ _ _ _ Hidx Hc Hu Hnet).
Qed.


(** C10. For every list of locations, [convertToGeoJSON] gives a feature
    collection with exactly one feature, a LineString whose coordinates are
    the [longitude, latitude] pairs of the locations (as many as there are
    locations, none for the empty list) and whose properties are the seven
    entries type, trip_id, trip_start, trip_end, privacy_zone, color and
    point-color. *)
Theorem convertToGeoJSON_one_feature
    (locations : list LocationData) (tripID tripStart tripEnd : string) :
  let coords := (λ loc, [Longitude loc; Latitude loc]) <$> locations in
  let properties : gmap string any :=
    list_to_map [("type", AString "LineString");
                 ("trip_id", AString tripID);
                 ("trip_start", AString tripStart);
                 ("trip_end", AString tripEnd);
                 ("privacy_zone", AInt 1);
                 ("color", AString "black");
                 ("point-color", AString "black")] in
  convertToGeoJSON locations tripID tripStart tripEnd
  = {| fcType := "FeatureCollection";
       Features := [ {| fType := "Feature";
                        geometry := {| gType := "LineString"; LineString := coords |};
                        Properties := properties |} ] |}
  ∧ length coords = length locations
  ∧ (∀ i loc, locations !! i = Some loc → coords !! i = Some [Longitude loc; Latitude loc])
  ∧ size properties = 7%nat
  ∧ convertToGeoJSON [] tripID tripStart tripEnd
    = {| fcType := "FeatureCollection";
         Features := [ {| fType := "Feature";
                          geometry := {| gType := "LineString"; LineString := [] |};
                          Properties := properties |} ] |}.
Proof.
  intros coords properties. split_and!.
  - done.
  - apply length_fmap.
  - intros i loc Hi. unfold coords. by rewrite list_lookup_fmap, Hi.
  - unfold properties. simpl.
    rewrite !map_size_insert_None; [by rewrite map_size_empty|..];
      by repeat (rewrite lookup_insert_ne by done).
  - done.
Qed.

(** *** The session handshake *)

Lemma HandleSubmitChallenge_accepted net settings state signature sessionID tSet tCookie w token :
  accessTokenOf (submitOutcome net settings state signature) = Some token →
  HandleSubmitChallenge net settings state signature sessionID tSet tCookie w
  = (Ok {| Status := StatusOK;
           SetCookie := [sessionCookieOf sessionID tCookie];
           Sent := JSON (AMap
             (<["message" := AString "Challenge accepted and session started!"]>
             (<["access_token" := token]> ∅))) |},
     withCache (<[sessionID := {| Object := token; Expiration := tSet + 2 * Hour |}]>
                  (CacheInstance w))
       (afterPost settings state signature w)).
Proof.
  unfold accessTokenOf, submitOutcome, afterPost, HandleSubmitChallenge, submitRequest.
  unfold_M. unfold HeaderSet. simpl. intros H.
  repeat (case_match; simplify_eq/=); first [done|lia].
Qed.

Lemma HandleSubmitChallenge_refused net settings state signature sessionID tSet tCookie w :
  accessTokenOf (submitOutcome net settings state signature) = None →
  ∃ msg,
    HandleSubmitChallenge net settings state signature sessionID tSet tCookie w
    = (Ok (reply StatusInternalServerError (SendString msg)),
       afterPost settings state signature w).
Proof.
  unfold accessTokenOf, submitOutcome, afterPost, HandleSubmitChallenge, submitRequest.
  unfold_M. unfold HeaderSet. simpl. intros H.
  repeat (case_match; simplify_eq/=); first [by eauto|lia].
Qed.

(** C1. [HandleSubmitChallenge] always answers. When the provider accepts
    (status below 300, a body that decodes as a mapping, an [access_token]
    in it), the answer is 200 with the one cookie [session_id], HTTP-only,
    whose value is the minted session identifier and which expires two
    hours after the clock reading, and the cache gains exactly the entry
    from the session identifier to the access token, expiring two hours
    after the reading of [Set]. In every other case (transport failure,
    status 300 or more, unreadable or undecodable body, no mapping, no
    [access_token]) the answer is a 500 with a text message, without a
    cookie, and the cache is as it was. *)
Theorem submitSignature_session
    net settings state signature sessionID tSet tCookie w :
  ∃ resp w',
    HandleSubmitChallenge net settings state signature sessionID tSet tCookie w
    = (Ok resp, w')
    ∧ match accessTokenOf (submitOutcome net settings state signature) with
      | Some token =>
          Status resp = StatusOK
          ∧ SetCookie resp = [ {| Name := "session_id";
                                  Value := sessionID;
                                  Expires := tCookie + 2 * Hour;
                                  HTTPOnly := true;
                                  CookieDomain := "localhost" |} ]
          ∧ CacheInstance w'
            = <[sessionID := {| Object := token;
                                Expiration := tSet + 2 * Hour |}]>
                (CacheInstance w)
      | None =>
          Status resp = StatusInternalServerError
          ∧ (∃ msg, Sent resp = SendString msg)
          ∧ SetCookie resp = []
          ∧ CacheInstance w' = CacheInstance w
      end.
Proof.
  destruct (accessTokenOf (submitOutcome net settings state signature))
    as [token|] eqn:Hacc.
  - rewrite (HandleSubmitChallenge_accepted _ _ _ _ _ _ _ _ _ Hacc).
    eexists _, _. split; [done|]. by cbn [Status SetCookie CacheInstance withCache].
  - destruct (HandleSubmitChallenge_refused net settings state signature
                sessionID tSet tCookie w Hacc) as [msg ->].
    eexists _, _. split; [done|]. simpl. split_and!; eauto.
    unfold afterPost. by destruct (urlParseError _).
Qed.

Lemma cacheGet_insert_live k x (e t : Z) (c : gmap string Item) :
  (t ≤ e)%Z → cacheGet k t (<[k := {| Object := x; Expiration := e |}]> c) = Some x.
Proof.
  intros Ht. unfold cacheGet. rewrite lookup_insert_eq. simpl.
  case_decide; [lia|done].
Qed.

Lemma cacheGet_insert_ne k k' item t (c : gmap string Item) :
  k ≠ k' → cacheGet k' t (<[k := item]> c) = cacheGet k' t c.
Proof. intros Hne. unfold cacheGet. by rewrite lookup_insert_ne. Qed.

(** C2, as the code has it. After an accepted submission the cache maps the
    session identifier, the value of the cookie, to exactly the access
    token of the provider for the two hours of its lifetime. The key the
    trip aggregator looks up is the identifier prefixed with
    ["privilegeToken_"], which the handshake does not write: the lookup
    finds what it would have found before, and where that is nothing,
    [queryTripsAPI] and [queryDeviceDataHistory] fail with "privilege token
    not found in cache". *)
Theorem session_maps_to_access_token
    net settings state signature sessionID tSet tCookie w token :
  accessTokenOf (submitOutcome net settings state signature) = Some token →
  ∃ resp w',
    HandleSubmitChallenge net settings state signature sessionID tSet tCookie w
    = (Ok resp, w')
    ∧ (Value <$> SetCookie resp) = [sessionID]
    ∧ (∀ t, (t ≤ tSet + 2 * Hour)%Z →
         cacheGet sessionID t (CacheInstance w') = Some token)
    ∧ (∀ t, cacheGet ("privilegeToken_" +:+ sessionID) t (CacheInstance w')
            = cacheGet ("privilegeToken_" +:+ sessionID) t (CacheInstance w))
    ∧ (∀ t, cacheGet ("privilegeToken_" +:+ sessionID) t (CacheInstance w) = None →
         (∀ net' tokenID,
            queryTripsAPI net' tokenID settings sessionID t w'
            = (Err "privilege token not found in cache", w'))
         ∧ (∀ net' tokenID startTime endTime,
            queryDeviceDataHistory net' tokenID startTime endTime settings sessionID t w'
            = (Err "privilege token not found in cache", w'))).
Proof.
  intros Hacc. rewrite (HandleSubmitChallenge_accepted _ _ _ _ _ _ _ _ _ Hacc).
  eexists _, _. split; [done|]. simpl.
  assert (∀ t, cacheGet ("privilegeToken_" +:+ sessionID) t
                 (<[sessionID := {| Object := token; Expiration := tSet + 2 * Hour |}]>
                    (CacheInstance w))
               = cacheGet ("privilegeToken_" +:+ sessionID) t (CacheInstance w)) as Hkey.
  { intros t. apply cacheGet_insert_ne. intros Heq. by apply (privilegeTokenKey_ne sessionID). }
  split_and!.
  - done.
  - intros t Ht. by apply cacheGet_insert_live.
  - done.
  - intros t Hmiss. split; intros.
    + apply queryTripsAPI_miss. simpl. by rewrite Hkey.
    + apply queryDeviceDataHistory_miss. simpl. by rewrite Hkey.
Qed.

(** C3, as the code has it. After an accepted submission the only cookie is
    [session_id] and its value is the minted session identifier, whatever
    the access token is; the JSON body of the answer has the two fields
    [message] and [access_token], the latter being the access token of the
    provider, which is thus visible in the response. *)
Theorem session_response_contents
    net settings state signature sessionID tSet tCookie w token :
  accessTokenOf (submitOutcome net settings state signature) = Some token →
  ∃ resp w' m,
    HandleSubmitChallenge net settings state signature sessionID tSet tCookie w
    = (Ok resp, w')
    ∧ (Name <$> SetCookie resp) = ["session_id"]
    ∧ (Value <$> SetCookie resp) = [sessionID]
    ∧ Sent resp = JSON (AMap m)
    ∧ dom m = ({[ "message"; "access_token" ]} : gset string)
    ∧ m !! "message" = Some (AString "Challenge accepted and session started!")
    ∧ m !! "access_token" = Some token
    ∧ visibleIn token resp.
Proof.
  intros Hacc. rewrite (HandleSubmitChallenge_accepted _ _ _ _ _ _ _ _ _ Hacc).
  eexists _, _, (<["message" := AString "Challenge accepted and session started!"]>
                 (<["access_token" := token]> ∅)).
  split; [done|]. split_and!; try done.
  right. eexists _, "access_token". split; [done|]. done.
Qed.

(** *** The identity resolver *)

(** [queryIdentityAPIForVehicles] never reads the status of the answer. *)
Lemma queryIdentityAPIForVehicles_outcome net ethAddress settings w :
  urlParseError (IdentityAPIURL settings) = None →
  let req := {| Method := "POST";
                URL := IdentityAPIURL settings;
                Header := [("Content-Type", "application/json")];
                Payload := GraphQLBody {| Query := graphqlQuery ethAddress |} |} in
  queryIdentityAPIForVehicles net ethAddress settings w
  = (match net req with
     | TransportErr e => Err e
     | Resp resp =>
         match Body resp with
         | Unreadable e | Undecodable e => Err e
         | Decoded response => Ok (Nodes response)
         end
     end, sentAlso req w).
Proof.
  intros Hu. unfold queryIdentityAPIForVehicles. unfold_M. rewrite Hu. simpl.
  unfold HeaderSet, sentAlso. simpl.
  repeat (case_match; simplify_eq/=); done.
Qed.

(** *** The challenge endpoint *)

(** The state after the [http.Post] of [HandleGenerateChallenge]. *)
Lemma HandleGenerateChallenge_run net settings more address w :
  ∃ resp,
    HandleGenerateChallenge net settings more address w
    = (Ok resp,
       match urlParseError (AuthURL more) with
       | Some _ => w
       | None => sentAlso (challengeRequest settings more address) w
       end)
    ∧ match challengeOf (challengeOutcome net settings more address) with
      | Some apiResp => resp = reply StatusOK (JSON (challengeJSON apiResp))
      | None =>
          Status resp = StatusInternalServerError
          ∧ SetCookie resp = []
          ∧ ∃ msg, Sent resp = SendString msg
      end.
Proof.
  unfold HandleGenerateChallenge, challengeOf, challengeOutcome, challengeRequest, contentOf.
  unfold_M. unfold HeaderSet, sentAlso. simpl.
  destruct (urlParseError (AuthURL more)); simpl.
  { eexists. split; [reflexivity|]. simpl. eauto. }
  destruct (net _) as [e|resp]; simpl.
  { eexists. split; [reflexivity|]. simpl. eauto. }
  destruct (Body resp) as [e|e|apiResp]; simpl;
    [eexists; split; [reflexivity|]; simpl; by eauto..|].
  destruct (decide _); eexists; (split; [reflexivity|]); simpl; eauto.
Qed.

(** X1. [HandleGenerateChallenge] always answers, and it relays the state
    and the challenge of the provider, as a JSON object of these two
    fields, exactly when the body of the provider decodes with both of them
    non-empty; in every other case it answers 500 with a text. It leaves
    the cache and the trip index as they are. *)
Theorem generate_challenge_relays net settings more address w :
  ∃ resp w',
    HandleGenerateChallenge net settings more address w = (Ok resp, w')
    ∧ CacheInstance w' = CacheInstance w
    ∧ tripIDToTokenIDMap w' = tripIDToTokenIDMap w
    ∧ match challengeOf (challengeOutcome net settings more address) with
      | Some apiResp =>
          State apiResp ≠ EmptyString ∧ Challenge apiResp ≠ EmptyString
          ∧ resp = reply StatusOK
                     (JSON (AMap (<["state" := AString (State apiResp)]>
                                 (<["challenge" := AString (Challenge apiResp)]> ∅))))
      | None =>
          Status resp = StatusInternalServerError
          ∧ SetCookie resp = []
          ∧ ∃ msg, Sent resp = SendString msg
      end.
Proof.
  destruct (HandleGenerateChallenge_run net settings more address w) as (resp & Hrun & Hresp).
  eexists _, _. split; [exact Hrun|].
  split; [by destruct (urlParseError _)|]. split; [by destruct (urlParseError _)|].
  destruct (challengeOf _) as [apiResp|] eqn:Hch; [|done].
  unfold challengeOf in Hch.
  destruct (contentOf _) as [|[| |r]]; try done.
  destruct (decide _) as [|Hn]; simplify_eq.
  split_and!; [intros ?; apply Hn; by left|intros ?; apply Hn; by right|done].
Qed.

(** *** The status of an answer *)

(** Case analysis on the answers of two networks with the same content. *)
Ltac same_content :=
  repeat first
    [ match goal with
      | H : ∀ req, contentOf (?n req) = contentOf (?n' req) |- context [?n ?r] =>
          let Hc := fresh "Hc" in
          pose proof (H r) as Hc;
          destruct (n r) as [?|[? ?]], (n' r) as [?|[? ?]];
          simpl in Hc; simplify_eq/=
      end
    | progress (case_match; simplify_eq/=) ];
  try done.

(** X2. Apart from [HandleSubmitChallenge], no function reads the status of
    the answer it gets: two networks whose answers differ in their status
    only give the same result and the same state in [queryTripsAPI],
    [queryDeviceDataHistory], [queryIdentityAPIForVehicles] and
    [HandleGenerateChallenge]. *)
Theorem status_not_read :
  (∀ (net net' : Request → roundTrip TripsResponse) tokenID settings sessionCookie now w,
     (∀ req, contentOf (net req) = contentOf (net' req)) →
     queryTripsAPI net tokenID settings sessionCookie now w
     = queryTripsAPI net' tokenID settings sessionCookie now w)
  ∧ (∀ (net net' : Request → roundTrip any) tokenID startTime endTime settings
       sessionCookie now w,
     (∀ req, contentOf (net req) = contentOf (net' req)) →
     queryDeviceDataHistory net tokenID startTime endTime settings sessionCookie now w
     = queryDeviceDataHistory net' tokenID startTime endTime settings sessionCookie now w)
  ∧ (∀ (net net' : Request → roundTrip VehicleResponse) ethAddress settings w,
     (∀ req, contentOf (net req) = contentOf (net' req)) →
     queryIdentityAPIForVehicles net ethAddress settings w
     = queryIdentityAPIForVehicles net' ethAddress settings w)
  ∧ (∀ (net net' : Request → roundTrip ChallengeResponse) settings more address w,
     (∀ req, contentOf (net req) = contentOf (net' req)) →
     HandleGenerateChallenge net settings more address w
     = HandleGenerateChallenge net' settings more address w).
Proof.
  split_and!; intros net net' **.
  - unfold queryTripsAPI. unfold_M. same_content.
  - unfold queryDeviceDataHistory. unfold_M. same_content.
  - unfold queryIdentityAPIForVehicles. unfold_M. same_content.
  - unfold HandleGenerateChallenge. unfold_M.
    destruct (urlParseError (AuthURL more)); simpl; [done|]. same_content.
Qed.

(** *** The error handler *)

(** X3. [ErrorHandler] answers with the JSON object of the two fields
    [error], which is [true], and [message]. The code and the message are
    those of the [*fiber.Error] at the end of the chain of causes; without
    one they are 500 and "Internal Server Error". The texts of the wrapping
    errors and of any other error are never part of the answer. *)
Theorem ErrorHandler_answer (err : goError) :
  (∃ code message,
     ErrorHandler err
     = reply code (JSON (AMap (<["error" := ABool true]>
                              (<["message" := AString message]> ∅))))
     ∧ (asFiberError err = Some (code, message)
        ∨ (asFiberError err = None
           ∧ code = StatusInternalServerError
           ∧ message = "Internal Server Error")))
  ∧ (∀ text, ErrorHandler (Wrap text err) = ErrorHandler err)
  ∧ (∀ text text', ErrorHandler (ErrorString text) = ErrorHandler (ErrorString text')).
Proof.
  split_and!; [|done..].
  unfold ErrorHandler. destruct (asFiberError err) as [[code message]|]; eauto 10.
Qed.

(** *** The vehicles page *)

(** X4. Without a non-empty string under the address key,
    [HandleGetVehicles] answers 400 and leaves the state as it is: the
    identity service is not asked. *)
Theorem HandleGetVehicles_requires_address net local settings w :
  assertString local = None ∨ local = AString EmptyString →
  HandleGetVehicles net local settings w
  = (Ok (reply StatusBadRequest (SendString "Ethereum address is required")), w).
Proof.
  intros [H| ->]; unfold HandleGetVehicles; [by rewrite H|]. done.
Qed.

(** X5. With an address, [HandleGetVehicles] asks the identity service once
    and answers 200 with the vehicles of the decoded answer, all of them
    and in their order; a transport error, an unreadable or an undecodable
    body gives a 500 whose text ends with the text of that error. A URL
    that does not parse gives the same 500 without any request. *)
Theorem HandleGetVehicles_outcome net ethAddress settings w :
  ethAddress ≠ EmptyString →
  HandleGetVehicles net (AString ethAddress) settings w
  = match urlParseError (IdentityAPIURL settings) with
    | Some e =>
        (Ok (reply StatusInternalServerError
               (SendString ("Error querying identity API: " +:+ e))), w)
    | None =>
        (Ok match contentOf (net (vehiclesRequest settings ethAddress)) with
            | inl e | inr (Unreadable e) | inr (Undecodable e) =>
                reply StatusInternalServerError
                  (SendString ("Error querying identity API: " +:+ e))
            | inr (Decoded response) =>
                reply StatusOK (Render "vehicles" "My Vehicles" (Nodes response))
            end,
         sentAlso (vehiclesRequest settings ethAddress) w)
    end.
Proof.
  intros Hne. unfold HandleGetVehicles, queryIdentityAPIForVehicles, vehiclesRequest,
    contentOf. simpl. case_decide; [done|]. unfold_M. unfold HeaderSet, sentAlso. simpl.
  destruct (urlParseError _); simpl; [done|].
  destruct (net _) as [e|resp]; simpl; [done|].
  by destruct (Body resp).
Qed.

(** *** A cached token that is not a string *)

(** X6. When the value cached under the privilege-token key is not a
    string, [queryTripsAPI] and [queryDeviceDataHistory] panic in the type
    assertion of the bearer header, after the request has been built and
    before it is sent: no request goes out and the state is as it was. *)
Theorem token_not_a_string_panics tokenID settings sessionCookie now token w :
  cacheGet ("privilegeToken_" +:+ sessionCookie) now (CacheInstance w) = Some token →
  assertString token = None →
  (∀ net,
     urlParseError (URL (tripsRequest settings tokenID EmptyString)) = None →
     queryTripsAPI net tokenID settings sessionCookie now w = (Panic, w))
  ∧ (∀ net startTime endTime,
     urlParseError (URL (historyRequest settings tokenID startTime endTime EmptyString))
     = None →
     queryDeviceDataHistory net tokenID startTime endTime settings sessionCookie now w
     = (Panic, w)).
Proof.
  intros Hc Ht. split; intros.
  - unfold queryTripsAPI, tripsRequest in *. unfold_M. rewrite Hc. simpl.
    match goal with H : urlParseError _ = None |- _ => rewrite H end. simpl.
    by rewrite Ht.
  - unfold queryDeviceDataHistory, historyRequest in *. unfold_M. rewrite Hc. simpl.
    match goal with H : urlParseError _ = None |- _ => rewrite H end. simpl.
    by rewrite Ht.
Qed.

(** *** What a listing records *)

Lemma recordTrips_lookup tokenID trips idx id :
  recordTrips tokenID trips idx !! id
  = if decide (id ∈ ID <$> trips) then Some tokenID else idx !! id.
Proof.
  case_decide as Hin.
  - apply list_elem_of_fmap in Hin as (trip & -> & Hin). by apply recordTrips_listed.
  - by apply recordTrips_other.
Qed.

(** X8. After the loop of [queryTripsAPI] an id reads as the listed vehicle
    token when a returned trip has it, and as before otherwise. So the
    index a listing leaves depends on the set of the returned ids only,
    not on their order or repetitions, and recording the same listing
    again changes nothing. *)
Theorem recordTrips_set_of_ids tokenID trips idx :
  (∀ id, recordTrips tokenID trips idx !! id
         = if decide (id ∈ ID <$> trips) then Some tokenID else idx !! id)
  ∧ (∀ trips', (∀ id, id ∈ ID <$> trips ↔ id ∈ ID <$> trips') →
       recordTrips tokenID trips' idx = recordTrips tokenID trips idx)
  ∧ recordTrips tokenID trips (recordTrips tokenID trips idx)
    = recordTrips tokenID trips idx.
Proof.
  split_and!.
  - intros id. apply recordTrips_lookup.
  - intros trips' Hsame. apply map_eq. intros id. rewrite !recordTrips_lookup.
    pose proof (Hsame id). repeat case_decide; first [done|tauto].
  - apply map_eq. intros id. rewrite !recordTrips_lookup. by case_decide.
Qed.

(** *** What the handlers write *)

Lemma HandleSubmitChallenge_cache net settings state signature sessionID tSet tCookie w k :
  k ≠ sessionID →
  CacheInstance (HandleSubmitChallenge net settings state signature sessionID
                   tSet tCookie w).2 !! k
  = CacheInstance w !! k.
Proof.
  intros Hne.
  destruct (accessTokenOf (submitOutcome net settings state signature))
    as [token|] eqn:Hacc.
  - rewrite (HandleSubmitChallenge_accepted _ _ _ _ _ _ _ _ _ Hacc). simpl.
    by rewrite lookup_insert_ne.
  - destruct (HandleSubmitChallenge_refused net settings state signature
                sessionID tSet tCookie w Hacc) as [msg ->]. simpl.
    unfold afterPost. by destruct (urlParseError _).
Qed.

Lemma HandleGenerateChallenge_state net settings more address w :
  CacheInstance (HandleGenerateChallenge net settings more address w).2 = CacheInstance w
  ∧ tripIDToTokenIDMap (HandleGenerateChallenge net settings more address w).2
    = tripIDToTokenIDMap w.
Proof.
  destruct (HandleGenerateChallenge_run net settings more address w) as (resp & -> & _).
  simpl. by destruct (urlParseError _).
Qed.

Lemma pair_eta {A B} (p : A * B) : p = (p.1, p.2).
Proof. by destruct p. Qed.

(** X7. The state a request leaves differs from the state it found at most
    as follows. A submission writes the cache under its session identifier
    only and leaves the trip index; a listing leaves the cache, and the
    index it leaves is the old one or, when it succeeded, the old one with
    the returned trips recorded; every other request leaves both as they
    were. *)
Theorem handle_footprint (settings : Settings) (r : incoming) (w : World) :
  match r with
  | Core (SubmitChallenge _ _ _ sessionID _ _) =>
      tripIDToTokenIDMap (handle settings r w) = tripIDToTokenIDMap w
      ∧ ∀ k, k ≠ sessionID →
          CacheInstance (handle settings r w) !! k = CacheInstance w !! k
  | Core (ListTrips net tokenID sessionCookie now) =>
      CacheInstance (handle settings r w) = CacheInstance w
      ∧ match (queryTripsAPI net tokenID settings sessionCookie now w).1 with
        | Ok trips =>
            tripIDToTokenIDMap (handle settings r w)
            = recordTrips tokenID trips (tripIDToTokenIDMap w)
        | _ => tripIDToTokenIDMap (handle settings r w) = tripIDToTokenIDMap w
        end
  | _ =>
      CacheInstance (handle settings r w) = CacheInstance w
      ∧ tripIDToTokenIDMap (handle settings r w) = tripIDToTokenIDMap w
  end.
Proof.
  destruct r as [[net tokenID sessionCookie now|net sessionCookie now tripID st et
                 |net state signature sessionID tSet tCookie|net local]
                |net more address]; simpl.
  - pose proof (queryTripsAPI_state net tokenID settings sessionCookie now w _ _
                  (pair_eta _)) as [Hc Hi].
    destruct (queryTripsAPI net tokenID settings sessionCookie now w) as [[trips|e|] w'];
      simpl in *; done.
  - by apply (handleMapDataForTrip_state net sessionCookie now settings tripID st et w
                _ _ (pair_eta _)).
  - split.
    + by apply (HandleSubmitChallenge_index net settings state signature sessionID
                  tSet tCookie w _ _ (pair_eta _)).
    + intros k Hne. by apply HandleSubmitChallenge_cache.
  - by apply (HandleGetVehicles_state net local settings w _ _ (pair_eta _)).
  - apply HandleGenerateChallenge_state.
Qed.

Lemma handle_cache settings r w k :
  k ∉ sessionIDsOf [r] →
  CacheInstance (handle settings r w) !! k = CacheInstance w !! k.
Proof.
  intros Hk.
  destruct r as [[net tokenID sessionCookie now|net sessionCookie now tripID st et
                 |net state signature sessionID tSet tCookie|net local]
                |net more address]; simpl in *.
  - pose proof (queryTripsAPI_state net tokenID settings sessionCookie now w _ _
                  (pair_eta _)) as [Hc _].
    destruct (queryTripsAPI net tokenID settings sessionCookie now w) as [[trips|e|] w'];
      simpl in *; by rewrite Hc.
  - by rewrite (proj1 (handleMapDataForTrip_state net sessionCookie now settings tripID
                         st et w _ _ (pair_eta _))).
  - apply HandleSubmitChallenge_cache. set_solver.
  - by rewrite (proj1 (HandleGetVehicles_state net local settings w _ _ (pair_eta _))).
  - by rewrite (proj1 (HandleGenerateChallenge_state net settings more address w)).
Qed.

Lemma handle_index settings r w id :
  is_Some (tripIDToTokenIDMap w !! id) →
  is_Some (tripIDToTokenIDMap (handle settings r w) !! id).
Proof.
  intros Hid.
  destruct r as [[net tokenID sessionCookie now|net sessionCookie now tripID st et
                 |net state signature sessionID tSet tCookie|net local]
                |net more address]; simpl in *.
  - pose proof (queryTripsAPI_state net tokenID settings sessionCookie now w _ _
                  (pair_eta _)) as [_ Hi].
    destruct (queryTripsAPI net tokenID settings sessionCookie now w) as [[trips|e|] w'];
      simpl in *; rewrite Hi; [|done..].
    rewrite recordTrips_lookup. by case_decide.
  - by rewrite (proj2 (handleMapDataForTrip_state net sessionCookie now settings tripID
                         st et w _ _ (pair_eta _))).
  - by rewrite (HandleSubmitChallenge_index net settings state signature sessionID
                  tSet tCookie w _ _ (pair_eta _)).
  - by rewrite (proj2 (HandleGetVehicles_state net local settings w _ _ (pair_eta _))).
  - by rewrite (proj2 (HandleGenerateChallenge_state net settings more address w)).
Qed.

Lemma sessionIDsOf_cons r rs : sessionIDsOf (r :: rs) = (sessionIDsOf [r] ++ sessionIDsOf rs)%list.
Proof. unfold sessionIDsOf. simpl. by destruct r as [[]|]. Qed.

(** X9. Over any sequence of requests, a cache key that is not the session
    identifier of one of the submissions keeps the item it had, or stays
    absent, and a trip id once in the index stays in the index: the
    handlers here create no privilege token and prune no trip. *)
Theorem handleAll_keeps (settings : Settings) (rs : list incoming) (w : World) :
  (∀ k, k ∉ sessionIDsOf rs →
     CacheInstance (handleAll settings rs w) !! k = CacheInstance w !! k)
  ∧ (∀ id, is_Some (tripIDToTokenIDMap w !! id) →
       is_Some (tripIDToTokenIDMap (handleAll settings rs w) !! id)).
Proof.
  unfold handleAll. revert w. induction rs as [|r rs IH]; intros w; cbn [foldl]; [done|].
  destruct (IH (handle settings r w)) as [IHc IHi]. split.
  - intros k Hk. rewrite sessionIDsOf_cons in Hk. apply not_elem_of_app in Hk as [Hr Hrs].
    rewrite IHc by done. by apply handle_cache.
  - intros id Hid. apply IHi. by apply handle_index.
Qed.

(** *** Sessions over time *)

Lemma cacheGet_insert_eq k x (e t : Z) (c : gmap string Item) :
  cacheGet k t (<[k := {| Object := x; Expiration := e |}]> c)
  = if decide (0 < e ∧ e < t)%Z then None else Some x.
Proof. unfold cacheGet. by rewrite lookup_insert_eq. Qed.

(** X11. The session of an accepted submission is found under its
    identifier at every instant up to two hours after the clock reading of
    [Set], and at no later instant (for a reading after the epoch). *)
Theorem session_lifetime
    net settings state signature sessionID tSet tCookie w token (t : Z) :
  accessTokenOf (submitOutcome net settings state signature) = Some token →
  cacheGet sessionID t
    (CacheInstance (HandleSubmitChallenge net settings state signature sessionID
                      tSet tCookie w).2)
  = if decide (0 < tSet + 2 * Hour ∧ tSet + 2 * Hour < t)%Z then None else Some token.
Proof.
  intros Hacc. rewrite (HandleSubmitChallenge_accepted _ _ _ _ _ _ _ _ _ Hacc).
  apply cacheGet_insert_eq.
Qed.

(** X10. Nothing in [HandleSubmitChallenge] remembers a state it has seen:
    the same state and signature, accepted twice, give two sessions. Under
    distinct identifiers both are found, each with the token of its own
    submission; under one identifier the later token replaces the
    earlier. *)
Theorem resubmission_gives_second_session
    net1 net2 settings state signature sid1 sid2 tSet1 tCookie1 tSet2 tCookie2 w
    token1 token2 (t : Z) :
  accessTokenOf (submitOutcome net1 settings state signature) = Some token1 →
  accessTokenOf (submitOutcome net2 settings state signature) = Some token2 →
  (t ≤ tSet1 + 2 * Hour)%Z → (t ≤ tSet2 + 2 * Hour)%Z →
  let w1 := (HandleSubmitChallenge net1 settings state signature sid1 tSet1 tCookie1 w).2 in
  let w2 := (HandleSubmitChallenge net2 settings state signature sid2 tSet2 tCookie2 w1).2 in
  cacheGet sid2 t (CacheInstance w2) = Some token2
  ∧ cacheGet sid1 t (CacheInstance w2)
    = if decide (sid1 = sid2) then Some token2 else Some token1.
Proof.
  intros Hacc1 Hacc2 Ht1 Ht2 w1 w2. unfold w2, w1.
  rewrite (HandleSubmitChallenge_accepted _ _ _ _ _ _ _ _ _ Hacc2).
  rewrite (HandleSubmitChallenge_accepted _ _ _ _ _ _ _ _ _ Hacc1). simpl.
  split.
  - by apply cacheGet_insert_live.
  - case_decide as Heq.
    + subst. by apply cacheGet_insert_live.
    + rewrite cacheGet_insert_ne by done. by apply cacheGet_insert_live.
Qed.

(** *** What goes out *)

Lemma queryTripsAPI_outbound net tokenID settings sessionCookie now w :
  ∃ l, outbound (queryTripsAPI net tokenID settings sessionCookie now w).2
       = (outbound w ++ l)%list ∧ (length l ≤ 1)%nat.
Proof.
  unfold queryTripsAPI. unfold_M.
  repeat (case_match; simplify_eq/=);
    first [by exists []; rewrite app_nil_r; split; [|simpl; lia]
          |by eexists [_]; split; [|simpl; lia]].
Qed.

Lemma queryDeviceDataHistory_outbound net tokenID startTime endTime settings
    sessionCookie now w :
  ∃ l, outbound (queryDeviceDataHistory net tokenID startTime endTime settings
                   sessionCookie now w).2
       = (outbound w ++ l)%list ∧ (length l ≤ 1)%nat.
Proof.
  unfold queryDeviceDataHistory. unfold_M.
  repeat (case_match; simplify_eq/=);
    first [by exists []; rewrite app_nil_r; split; [|simpl; lia]
          |by eexists [_]; split; [|simpl; lia]].
Qed.

Lemma handleMapDataForTrip_outbound net sessionCookie now settings tripID startTime
    endTime w :
  ∃ l, outbound (handleMapDataForTrip net sessionCookie now settings tripID startTime
                   endTime w).2
       = (outbound w ++ l)%list ∧ (length l ≤ 1)%nat.
Proof.
  destruct (tripIDToTokenIDMap w !! tripID) as [tokenID|] eqn:Hidx.
  - rewrite (handleMapDataForTrip_indexed _ _ _ _ _ _ _ _ _ Hidx).
    destruct (queryDeviceDataHistory_outbound net tokenID startTime endTime settings
                sessionCookie now w) as (l & Hl & Hlen).
    destruct (queryDeviceDataHistory _ _ _ _ _ _ _ w) as [[locations|err|] w'];
      simpl in *; eauto.
  - rewrite handleMapDataForTrip_unknown by done. exists []. rewrite app_nil_r.
    split; [done|simpl; lia].
Qed.

Lemma HandleGetVehicles_outbound net local settings w :
  ∃ l, outbound (HandleGetVehicles net local settings w).2
       = (outbound w ++ l)%list ∧ (length l ≤ 1)%nat.
Proof.
  unfold HandleGetVehicles, queryIdentityAPIForVehicles. unfold_M.
  repeat (case_match; simplify_eq/=);
    first [by exists []; rewrite app_nil_r; split; [|simpl; lia]
          |by eexists [_]; split; [|simpl; lia]].
Qed.

Lemma HandleSubmitChallenge_outbound net settings state signature sessionID tSet tCookie w :
  ∃ l, outbound (HandleSubmitChallenge net settings state signature sessionID
                   tSet tCookie w).2
       = (outbound w ++ l)%list ∧ (length l ≤ 1)%nat.
Proof.
  destruct (accessTokenOf (submitOutcome net settings state signature))
    as [token|] eqn:Hacc.
  - rewrite (HandleSubmitChallenge_accepted _ _ _ _ _ _ _ _ _ Hacc). simpl.
    unfold afterPost. destruct (urlParseError _); simpl;
      first [by exists []; rewrite app_nil_r; split; [|simpl; lia]
          |by eexists [_]; split; [|simpl; lia]].
  - destruct (HandleSubmitChallenge_refused net settings state signature
                sessionID tSet tCookie w Hacc) as [msg ->]. simpl.
    unfold afterPost. destruct (urlParseError _); simpl;
      first [by exists []; rewrite app_nil_r; split; [|simpl; lia]
          |by eexists [_]; split; [|simpl; lia]].
Qed.

Lemma HandleGenerateChallenge_outbound net settings more address w :
  ∃ l, outbound (HandleGenerateChallenge net settings more address w).2
       = (outbound w ++ l)%list ∧ (length l ≤ 1)%nat.
Proof.
  destruct (HandleGenerateChallenge_run net settings more address w) as (resp & -> & _).
  simpl. destruct (urlParseError _); simpl;
    first [by exists []; rewrite app_nil_r; split; [|simpl; lia]
          |by eexists [_]; split; [|simpl; lia]].
Qed.

Lemma handle_outbound settings r w :
  ∃ l, outbound (handle settings r w) = (outbound w ++ l)%list ∧ (length l ≤ 1)%nat.
Proof.
  destruct r as [[net tokenID sessionCookie now|net sessionCookie now tripID st et
                 |net state signature sessionID tSet tCookie|net local]
                |net more address]; simpl.
  - destruct (queryTripsAPI_outbound net tokenID settings sessionCookie now w)
      as (l & Hl & Hlen).
    destruct (queryTripsAPI net tokenID settings sessionCookie now w) as [[trips|e|] w'];
      simpl in *; eauto.
  - apply handleMapDataForTrip_outbound.
  - apply HandleSubmitChallenge_outbound.
  - apply HandleGetVehicles_outbound.
  - apply HandleGenerateChallenge_outbound.
Qed.

(** X12. The log of outbound requests only grows, and by at most one entry
    for each request the server handles: none of the handlers asks an
    upstream service twice, and none retries. *)
Theorem handleAll_outbound (settings : Settings) (rs : list incoming) (w : World) :
  ∃ l, outbound (handleAll settings rs w) = (outbound w ++ l)%list
       ∧ (length l ≤ length rs)%nat.
Proof.
  unfold handleAll. revert w. induction rs as [|r rs IH]; intros w; cbn [foldl].
  { exists []. rewrite app_nil_r. split; [done|simpl; lia]. }
  destruct (handle_outbound settings r w) as (l1 & Hl1 & Hlen1).
  destruct (IH (handle settings r w)) as (l2 & Hl2 & Hlen2).
  exists (l1 ++ l2)%list. rewrite Hl2, Hl1, <- app_assoc. split; [done|].
  rewrite length_app. simpl. lia.
Qed.

(** *** Whose token goes out *)

(** X13. [handleMapDataForTrip] does not ask which session listed a trip:
    once a listing has recorded the trip for a vehicle, the request of any
    session that holds a privilege token goes out for that vehicle, with
    the bearer token of the requesting session. *)
Theorem trip_path_request_of_any_session
    netA netB settings cookieA cookieB nowA nowB vehicle bearerB startTime endTime
    w trips w1 trip :
  queryTripsAPI netA vehicle settings cookieA nowA w = (Ok trips, w1) →
  trip ∈ trips →
  cacheGet ("privilegeToken_" +:+ cookieB) nowB (CacheInstance w)
  = Some (AString bearerB) →
  urlParseError (URL (historyRequest settings vehicle startTime endTime bearerB)) = None →
  outbound (handleMapDataForTrip netB cookieB nowB settings (ID trip) startTime endTime
              w1).2
  = (outbound w1 ++ [historyRequest settings vehicle startTime endTime bearerB])%list.
Proof.
  intros Hlist Hin Hc Hu.
  apply queryTripsAPI_state in Hlist as [Hcache Hidx].
  assert (tripIDToTokenIDMap w1 !! ID trip = Some vehicle) as Hrec.
  { rewrite Hidx. by apply recordTrips_listed. }
  rewrite <- Hcache in Hc.
  rewrite (handleMapDataForTrip_indexed _ _ _ _ _ _ _ _ _ Hrec).
  rewrite (queryDeviceDataHistory_sent _ _ _ _ _ _ _ _ _ Hc Hu). simpl.
  by repeat case_match.
Qed.

(** *** Errors of the telemetry fetch *)

Lemma queryDeviceDataHistory_bad_url net tokenID startTime endTime settings sessionCookie
    now bearer e w :
  cacheGet ("privilegeToken_" +:+ sessionCookie) now (CacheInstance w)
  = Some (AString bearer) →
  urlParseError (URL (historyRequest settings tokenID startTime endTime bearer)) = Some e →
  queryDeviceDataHistory net tokenID startTime endTime settings sessionCookie now w
  = (Err e, w).
Proof.
  intros Hc Hu. unfold queryDeviceDataHistory, historyRequest in *. unfold_M.
  by rewrite Hc, Hu.
Qed.

(** X14. For an indexed trip and a cached token, every error of the
    telemetry fetch becomes a 500 whose JSON body has the one field [error]
    with the text of the error after a fixed prefix: the error of a URL
    that does not parse (nothing is sent), a transport error, an unreadable
    or undecodable body, and the type error of a document that is neither
    an object nor null. *)
Theorem history_error_echoed
    net sessionCookie now settings tripID startTime endTime tokenID bearer e w :
  tripIDToTokenIDMap w !! tripID = Some tokenID →
  cacheGet ("privilegeToken_" +:+ sessionCookie) now (CacheInstance w)
  = Some (AString bearer) →
  let req := historyRequest settings tokenID startTime endTime bearer in
  let failure :=
    reply StatusInternalServerError
      (JSON (AMap {[ "error" := AString ("Failed to fetch historical data: " +:+ e) ]})) in
  (urlParseError (URL req) = Some e →
   handleMapDataForTrip net sessionCookie now settings tripID startTime endTime w
   = (Ok failure, w))
  ∧ (urlParseError (URL req) = None →
     contentOf (net req) = inl e
     ∨ contentOf (net req) = inr (Unreadable e)
     ∨ contentOf (net req) = inr (Undecodable e)
     ∨ (∃ v, contentOf (net req) = inr (Decoded v) ∧ unmarshalMap v = inl e) →
     handleMapDataForTrip net sessionCookie now settings tripID startTime endTime w
     = (Ok failure, sentAlso req w)).
Proof.
  intros Hidx Hc req failure. split.
  - intros Hu. rewrite (handleMapDataForTrip_indexed _ _ _ _ _ _ _ _ _ Hidx).
    by rewrite (queryDeviceDataHistory_bad_url _ _ _ _ _ _ _ _ _ _ Hc Hu).
  - intros Hu Hcontent. rewrite (handleMapDataForTrip_indexed _ _ _ _ _ _ _ _ _ Hidx).
    rewrite (queryDeviceDataHistory_sent _ _ _ _ _ _ _ _ _ Hc Hu). simpl.
    fold req. unfold contentOf in Hcontent.
    destruct (net req) as [e'|resp]; simpl in *.
    { destruct Hcontent as [?|[?|[?|(v & ? & ?)]]]; by simplify_eq. }
    destruct (Body resp) as [e'|e'|v'];
      destruct Hcontent as [?|[?|[?|(v & ? & Hv)]]]; simplify_eq; try done.
    by rewrite Hv.
Qed.

(** *** The path read back *)

(** X15. The coordinates of the path keep every location: read back as
    [longitude, latitude] pairs they give the list of locations
    [convertToGeoJSON] was called with, so two lists of locations give the
    same collection, for the same trip, only if they are equal. *)
Theorem convertToGeoJSON_keeps_locations
    (locations : list LocationData) (tripID tripStart tripEnd : string) :
  (∃ coords,
     coordinatesOf (reply StatusOK
                      (GeoJSON (convertToGeoJSON locations tripID tripStart tripEnd)))
     = Some coords
     ∧ mapM locationOfPair coords = Some locations)
  ∧ (∀ locations',
       convertToGeoJSON locations' tripID tripStart tripEnd
       = convertToGeoJSON locations tripID tripStart tripEnd →
       locations' = locations).
Proof.
  assert (∀ l : list LocationData,
            mapM locationOfPair ((λ loc, [Longitude loc; Latitude loc]) <$> l) = Some l)
    as Hback.
  { intros l. apply mapM_fmap_Some. by intros []. }
  split.
  - eexists. split; [done|]. apply Hback.
  - intros locations' Heq.
    apply (f_equal (λ fc, coordinatesOf (reply StatusOK (GeoJSON fc)))) in Heq.
    simpl in Heq. injection Heq as Heq.
    apply (f_equal (mapM locationOfPair)) in Heq. rewrite !Hback in Heq.
    by injection Heq.
Qed.

(** *** The order of arrival *)

Lemma ascii_compare_trans (a b c : Ascii.ascii) (o : comparison) :
  Ascii.compare a b = o → Ascii.compare b c = o → Ascii.compare a c = o.
Proof.
  unfold Ascii.compare. destruct o; intros H1 H2.
  - apply N.compare_eq_iff in H1, H2. apply N.compare_eq_iff. congruence.
  - apply N.compare_lt_iff in H1. apply N.compare_lt_iff in H2.
    apply N.compare_lt_iff. by eapply N.lt_trans.
  - apply N.compare_gt_iff in H1. apply N.compare_gt_iff in H2.
    apply N.compare_gt_iff. by eapply N.lt_trans.
Qed.

Lemma string_compare_lt_trans (s t u : string) :
  String.compare s t = Lt → String.compare t u = Lt → String.compare s u = Lt.
Proof.
  revert t u. induction s as [|a s IH]; intros [|b t] [|c u]; simpl; try done.
  destruct (Ascii.compare a b) eqn:Hab; try done;
    destruct (Ascii.compare b c) eqn:Hbc; try done; intros H1 H2.
  - rewrite (ascii_compare_trans _ _ _ _ Hab Hbc). by eapply IH.
  - apply Ascii.compare_eq_iff in Hab as ->. by rewrite Hbc.
  - apply Ascii.compare_eq_iff in Hbc as <-. by rewrite Hab.
  - by rewrite (ascii_compare_trans _ _ _ _ Hab Hbc).
Qed.

Lemma ltb_false_trans (s t u : string) :
  String.ltb t s = false → String.ltb u t = false → String.ltb u s = false.
Proof.
  unfold String.ltb. intros H1 H2.
  destruct (String.compare u s) eqn:Hus; try done. exfalso.
  destruct (String.compare t s) eqn:Hts; try done.
  - apply String.compare_eq_iff in Hts as ->. by rewrite Hus in H2.
  - rewrite String.compare_antisym in Hts.
    destruct (String.compare s t) eqn:Hst; try done.
    rewrite (string_compare_lt_trans _ _ _ Hus Hst) in H2. done.
Qed.

Global Instance notAfter_trans : Transitive notAfter.
Proof.
  intros h1 h2 h3. unfold notAfter.
  destruct (timestampOf h1), (timestampOf h2), (timestampOf h3); try done.
  apply ltb_false_trans.
Qed.

Lemma notAfter_same_timestamp h1 h2 :
  notAfter h1 h2 → notAfter h2 h1 → timestampOf h1 = timestampOf h2.
Proof.
  unfold notAfter, String.ltb.
  destruct (timestampOf h1) as [t1|], (timestampOf h2) as [t2|]; try done.
  rewrite (String.compare_antisym t1 t2).
  destruct (String.compare t2 t1) eqn:H21; simpl; try done.
  by apply String.compare_eq_iff in H21 as ->.
Qed.

Lemma NoDup_fmap_eq {A B} (f : A → B) (l : list A) x y :
  NoDup (f <$> l) → x ∈ l → y ∈ l → f x = f y → x = y.
Proof.
  induction l as [|a l IH]; simpl; intros Hnd Hx Hy Hf; [by apply elem_of_nil in Hx|].
  apply NoDup_cons in Hnd as [Hna Hnd].
  apply elem_of_cons in Hx as [->|Hx], Hy as [->|Hy]; try done.
  - exfalso. apply Hna. rewrite Hf. by apply list_elem_of_fmap_2.
  - exfalso. apply Hna. rewrite <- Hf. by apply list_elem_of_fmap_2.
  - by apply IH.
Qed.

(** X16. When the hits carry pairwise distinct timestamps, the sorted
    sequence, and with it the path, does not depend on the order in which
    the history service returned them: any rearrangement of the hits sorts
    to the same sequence. *)
Theorem SliceStable_order_of_arrival (hits hits' : list any) :
  hits ≡ₚ hits' →
  Forall hasTimestamp hits →
  NoDup (timestampOf <$> hits) →
  ∃ sorted,
    SliceStable hits = Some sorted
    ∧ SliceStable hits' = Some sorted
    ∧ (extractLocationData <$> SliceStable hits) = (extractLocationData <$> SliceStable hits').
Proof.
  intros Hperm Hts Hnd.
  destruct (SliceStable_sorts hits Hts) as (out & Hout & Hp & Hasc & _).
  destruct (SliceStable_sorts hits') as (out' & Hout' & Hp' & Hasc' & _).
  { by rewrite <- Hperm. }
  assert (out = out') as <-.
  { apply (Sorted_unique_strong notAfter); try done.
    - intros x1 x2 Hx1 Hx2 H12 H21.
      apply (NoDup_fmap_eq timestampOf hits); try done.
      + by rewrite Hp.
      + by rewrite Hperm, Hp'.
      + by apply notAfter_same_timestamp.
    - by rewrite <- Hp, Hperm. }
  exists out. by rewrite Hout, Hout'.
Qed.

(** *** The outcome of a listing *)

(** X21. With a string token cached and a URL that parses, [queryTripsAPI]
    sends the one GET for the trips of the vehicle with the token as
    bearer; it returns the trips of the decoded answer, all of them and in
    their order, after recording them, and it returns the error of the
    transport or of the decoding, with the index untouched, otherwise. *)
Theorem queryTripsAPI_outcome net tokenID settings sessionCookie now bearer w :
  cacheGet ("privilegeToken_" +:+ sessionCookie) now (CacheInstance w)
  = Some (AString bearer) →
  urlParseError (URL (tripsRequest settings tokenID bearer)) = None →
  queryTripsAPI net tokenID settings sessionCookie now w
  = match contentOf (net (tripsRequest settings tokenID bearer)) with
    | inl e | inr (Unreadable e) | inr (Undecodable e) =>
        (Err e, sentAlso (tripsRequest settings tokenID bearer) w)
    | inr (Decoded tripsResponse) =>
        (Ok (Trips tripsResponse),
         {| CacheInstance := CacheInstance w;
            tripIDToTokenIDMap :=
              recordTrips tokenID (Trips tripsResponse) (tripIDToTokenIDMap w);
            outbound := outbound w ++ [tripsRequest settings tokenID bearer] |})
    end.
Proof.
  intros Hc Hu. unfold queryTripsAPI, tripsRequest, contentOf in *. unfold_M.
  rewrite Hc, Hu. simpl. unfold HeaderSet, sentAlso. simpl.
  destruct (net _) as [e|resp]; simpl; [done|]. by destruct (Body resp).
Qed.

End Handlers.

(** * The properties at sample inputs *)

(** ** The telemetry sort *)

(** Two hits already in order stay as they are; two hits out of order and a
    third sharing a timestamp are sorted. *)
Lemma SliceStable_ascending_stable_sample :
  SliceStable [sampleHit 11 21 "2024-01-01T00:00:01Z";
               sampleHit 10 20 "2024-01-01T00:00:02Z"]
  = Some [sampleHit 11 21 "2024-01-01T00:00:01Z";
          sampleHit 10 20 "2024-01-01T00:00:02Z"]
  ∧ ∃ out,
      SliceStable [sampleHit 10 20 "2024-01-01T00:00:02Z";
                   sampleHit 11 21 "2024-01-01T00:00:01Z";
                   sampleHit 12 22 "2024-01-01T00:00:02Z"] = Some out
      ∧ ascending out.
Proof.
  split.
  - apply (proj1 (SliceStable_ascending_stable _)).
    unfold ascending. repeat first [apply Sorted_cons | apply Sorted_nil
                                   | apply HdRel_cons | apply HdRel_nil].
    vm_compute. reflexivity.
  - destruct (proj2 (SliceStable_ascending_stable
                       [sampleHit 10 20 "2024-01-01T00:00:02Z";
                        sampleHit 11 21 "2024-01-01T00:00:01Z";
                        sampleHit 12 22 "2024-01-01T00:00:02Z"]))
      as (out & Hout & _ & Hasc & _).
    + repeat apply Forall_cons_2; [..|apply Forall_nil_2];
        eexists; vm_compute; reflexivity.
    + exists out. split; [exact Hout|exact Hasc].
Defined.

(** ** The cache lookup *)

(** A token that expired at instant 100 is not found at instant 200. *)
Lemma cache_miss_sends_nothing_sample :
  cacheGet "privilegeToken_sid-9" 200
    (<["privilegeToken_sid-9" := {| Object := AString "tok"; Expiration := 100 |}]> ∅)
  = None
  ∧ ∀ net tokenID settings,
      queryTripsAPI everyURLParses net tokenID settings "sid-9" 200
        (withCache (<["privilegeToken_sid-9" :=
                       {| Object := AString "tok"; Expiration := 100 |}]> ∅) boot)
      = (Err "privilege token not found in cache",
         withCache (<["privilegeToken_sid-9" :=
                       {| Object := AString "tok"; Expiration := 100 |}]> ∅) boot).
Proof.
  split; [vm_compute; reflexivity|].
  apply (cache_miss_sends_nothing everyURLParses escapeNothing "sid-9" 200
           (withCache (<["privilegeToken_sid-9" :=
                          {| Object := AString "tok"; Expiration := 100 |}]> ∅) boot)).
  vm_compute. reflexivity.
Defined.

(** ** The trip index *)

(** Listing the trips of vehicle 8 records the returned trip for it. *)
Lemma trip_index_resolution_sample :
  tripIDToTokenIDMap
    (queryTripsAPI everyURLParses
       (answer 200 {| Trips := [ {| ID := "trip-2";
                                    Start := {| Time := "2024-01-01T00:00:00Z" |};
                                    End := {| Time := "2024-01-01T01:00:00Z" |} |} ] |})
       8 sampleSettings "sid-1" 0 sampleWorld).2 !! "trip-2" = Some 8.
Proof.
  refine (proj1 (proj1 (proj2 (trip_index_resolution everyURLParses escapeNothing
                                 sampleSettings))
                   (answer 200 {| Trips := [ {| ID := "trip-2";
                        Start := {| Time := "2024-01-01T00:00:00Z" |};
                        End := {| Time := "2024-01-01T01:00:00Z" |} |} ] |})
                   8 "sid-1" 0 sampleWorld _ _ eq_refl)
            {| ID := "trip-2";
               Start := {| Time := "2024-01-01T00:00:00Z" |};
               End := {| Time := "2024-01-01T01:00:00Z" |} |} _).
  apply list_elem_of_here.
Defined.

(** ** The telemetry pipeline *)

Lemma getTripPath_sorted_coordinates_sample :
  ∃ resp,
    handleMapDataForTrip everyURLParses escapeNothing
      (answer 200 (AMap (telemetryDoc [sampleHit 10 20 "2024-01-01T00:00:02Z";
                                       sampleHit 11 21 "2024-01-01T00:00:01Z"])))
      "sid-1" 0 sampleSettings "trip-1" "2024-01-01" "2024-01-02" sampleWorld
    = (Ok resp,
       sentAlso (historyRequest escapeNothing sampleSettings 7
                   "2024-01-01" "2024-01-02" "tok") sampleWorld)
    ∧ Status resp = StatusOK
    ∧ coordinatesOf resp = Some [[21%float; 11%float]; [20%float; 10%float]].
Proof.
  apply (proj2 (getTripPath_sorted_coordinates everyURLParses escapeNothing
                  (answer 200 (AMap (telemetryDoc
                     [sampleHit 10 20 "2024-01-01T00:00:02Z";
                      sampleHit 11 21 "2024-01-01T00:00:01Z"])))
                  "sid-1" 0 sampleSettings "trip-1" "2024-01-01" "2024-01-02" 7 "tok"
                  sampleWorld eq_refl eq_refl eq_refl) 200).
  reflexivity.
Defined.

(** A hit without a latitude next to a well-formed one, and the body
    [null]: the handler panics. *)
Lemma malformed_telemetry_panics_sample :
  handleMapDataForTrip everyURLParses escapeNothing
    (answer 200 (AMap (telemetryDoc [sampleHit 10 20 "2024-01-01T00:00:02Z";
                                     hitWithoutLatitude 21 "2024-01-01T00:00:01Z"])))
    "sid-1" 0 sampleSettings "trip-1" "2024-01-01" "2024-01-02" sampleWorld
  = (Panic,
     sentAlso (historyRequest escapeNothing sampleSettings 7
                 "2024-01-01" "2024-01-02" "tok") sampleWorld)
  ∧ handleMapDataForTrip everyURLParses escapeNothing (answer 200 ANil)
      "sid-1" 0 sampleSettings "trip-1" "2024-01-01" "2024-01-02" sampleWorld
    = (Panic,
       sentAlso (historyRequest escapeNothing sampleSettings 7
                   "2024-01-01" "2024-01-02" "tok") sampleWorld).
Proof.
  split.
  - apply (proj1 (proj2 (malformed_telemetry_panics everyURLParses escapeNothing
                    (answer 200 (AMap (telemetryDoc
                       [sampleHit 10 20 "2024-01-01T00:00:02Z";
                        hitWithoutLatitude 21 "2024-01-01T00:00:01Z"])))
                    "sid-1" 0 sampleSettings "trip-1" "2024-01-01" "2024-01-02" 7 "tok"
                    200 _ sampleWorld eq_refl eq_refl eq_refl eq_refl)) _ eq_refl).
    right. eexists. split; [vm_compute; reflexivity|].
    left. apply Exists_cons_tl, Exists_cons_hd. vm_compute. reflexivity.
  - apply (proj1 (proj2 (malformed_telemetry_panics everyURLParses escapeNothing
                    (answer 200 ANil)
                    "sid-1" 0 sampleSettings "trip-1" "2024-01-01" "2024-01-02" 7 "tok"
                    200 ANil sampleWorld eq_refl eq_refl eq_refl eq_refl)) ∅ eq_refl).
    left. reflexivity.
Defined.

(** C4 at sample documents: a single hit without a timestamp is converted
    into a one-point path, and a hit without a latitude gives a panic, not
    an error response. *)
Lemma hit_without_timestamp_accepted :
  timestampOf (hitWithoutTimestamp 10 20) = None
  ∧ (handleMapDataForTrip everyURLParses escapeNothing
       (answer 200 (AMap (telemetryDoc [hitWithoutTimestamp 10 20])))
       "sid-1" 0 sampleSettings "trip-1" "2024-01-01" "2024-01-02" sampleWorld).1
    = Ok (reply StatusOK
            (GeoJSON (convertToGeoJSON [ {| Latitude := 10; Longitude := 20 |} ]
                        "trip-1" "2024-01-01" "2024-01-02")))
  ∧ locationOf (hitWithoutLatitude 21 "2024-01-01T00:00:01Z") = None
  ∧ (handleMapDataForTrip everyURLParses escapeNothing
       (answer 200 (AMap (telemetryDoc [hitWithoutLatitude 21 "2024-01-01T00:00:01Z"])))
       "sid-1" 0 sampleSettings "trip-1" "2024-01-01" "2024-01-02" sampleWorld).1
    = Panic.
Proof. split_and!; vm_compute; reflexivity. Qed.

(** ** The session handshake *)

(** An accepted submission at the start of a process: the cookie carries
    [sid-1], and the cache maps [sid-1] to the token an hour later. *)
Lemma session_maps_to_access_token_sample :
  ∃ resp w',
    HandleSubmitChallenge everyURLParses
      (answer 200 sampleGrant)
      sampleSettings "s1" "0xsig" "sid-1" 0 0 boot = (Ok resp, w')
    ∧ (Value <$> SetCookie resp) = ["sid-1"]
    ∧ cacheGet "sid-1" Hour (CacheInstance w') = Some (AString "tok").
Proof.
  destruct (session_maps_to_access_token everyURLParses escapeNothing
              (answer 200 sampleGrant)
              sampleSettings "s1" "0xsig" "sid-1" 0 0 boot (AString "tok")
              ltac:(vm_compute; reflexivity))
    as (resp & w' & Hrun & Hcookie & Hlive & _).
  exists resp, w'. split; [exact Hrun|]. split; [exact Hcookie|].
  apply Hlive. vm_compute. discriminate.
Defined.

(** Against C2 as the specification words it: with the cookie of the
    session just established, the lookup of the trip aggregator finds
    nothing, and both [queryTripsAPI] and [handleMapDataForTrip] report
    that the privilege token is not in the cache. *)
Lemma session_cookie_finds_no_privilege_token :
  ∃ resp w',
    HandleSubmitChallenge everyURLParses
      (answer 200 sampleGrant)
      sampleSettings "s1" "0xsig" "sid-1" 0 0 indexedWorld = (Ok resp, w')
    ∧ Status resp = StatusOK
    ∧ (Value <$> SetCookie resp) = ["sid-1"]
    ∧ (queryTripsAPI everyURLParses (answer 200 {| Trips := [] |})
         7 sampleSettings "sid-1" 1 w').1
      = Err "privilege token not found in cache"
    ∧ (handleMapDataForTrip everyURLParses escapeNothing
         (answer 200 (AMap (telemetryDoc [])))
         "sid-1" 1 sampleSettings "trip-1" "2024-01-01" "2024-01-02" w').1
      = Ok (reply StatusInternalServerError
              (JSON (AMap {[ "error" := AString
                 "Failed to fetch historical data: privilege token not found in cache" ]}))).
Proof. eexists _, _. split_and!; vm_compute; reflexivity. Qed.

Lemma session_response_contents_sample :
  ∃ resp w',
    HandleSubmitChallenge everyURLParses
      (answer 200 sampleGrant)
      sampleSettings "s1" "0xsig" "sid-1" 0 0 boot = (Ok resp, w')
    ∧ (Value <$> SetCookie resp) = ["sid-1"]
    ∧ visibleIn (AString "tok") resp.
Proof.
  destruct (session_response_contents everyURLParses
              (answer 200 sampleGrant)
              sampleSettings "s1" "0xsig" "sid-1" 0 0 boot (AString "tok")
              ltac:(vm_compute; reflexivity))
    as (resp & w' & m & Hrun & _ & Hcookie & _ & _ & _ & _ & Hvisible).
  exists resp, w'. split; [exact Hrun|]. split; [exact Hcookie|exact Hvisible].
Defined.

(** Against C3 as the specification words it: the body sent to the browser
    has the access token of the provider in its [access_token] field. *)
Lemma access_token_sent_to_browser :
  ∃ resp w' m,
    HandleSubmitChallenge everyURLParses
      (answer 200 sampleGrant)
      sampleSettings "s1" "0xsig" "sid-1" 0 0 boot = (Ok resp, w')
    ∧ Status resp = StatusOK
    ∧ Sent resp = JSON (AMap m)
    ∧ m !! "access_token" = Some (AString "tok").
Proof. eexists _, _, _. split_and!; vm_compute; reflexivity. Qed.

(** ** The identity resolver *)

(** C9. The identity service answers 500 with a body that decodes without
    vehicles (an error document has no [data.vehicles.nodes]):
    [queryIdentityAPIForVehicles] returns the empty list and no error, and
    [HandleGetVehicles] renders the page of an owner without vehicles. *)
Theorem identity_error_status_not_reported :
  (queryIdentityAPIForVehicles everyURLParses (answer 500 {| Nodes := [] |})
     "0xABC" sampleSettings boot).1 = Ok []
  ∧ (HandleGetVehicles everyURLParses (answer 500 {| Nodes := [] |})
       (AString "0xABC") sampleSettings boot).1
    = Ok (reply StatusOK (Render "vehicles" "My Vehicles" [])).
Proof. split; vm_compute; reflexivity. Qed.

(** * The login page *)

Section LoginPageProperties.

Variable JSONparse : string → option any.
Variable DIMO_API_BASEURL : string.

(** X17. The nonce round trip: when the challenge endpoint is answered
    with [ok] and the text that [JSON.parse] reads as the object
    [HandleGenerateChallenge] sends, [getNonce] returns that text and
    [createMessage] turns it into the message with the state and the
    challenge of the provider. *)
Theorem nonce_becomes_message fetch address response nonce apiResp :
  fetch (nonceRequest DIMO_API_BASEURL address) = Returns response →
  resOk response = true →
  resText response = Returns nonce →
  JSONparse nonce = Some (challengeJSON apiResp) →
  getNonce DIMO_API_BASEURL fetch address = Returns nonce
  ∧ createMessage JSONparse nonce
    = Returns {| msgState := Some (AString (State apiResp));
                 msgChallenge := Some (AString (Challenge apiResp)) |}.
Proof.
  intros Hfetch Hok Htext Hparse. split.
  - unfold getNonce. by rewrite Hfetch, Hok.
  - unfold createMessage. by rewrite Hparse.
Qed.

(** X18. [createMessage] throws exactly when the nonce is not JSON or is
    the JSON [null]. Every other nonce gives a message: with the [state]
    and [challenge] fields of an object, whatever their types and absent
    ones being undefined, and with both undefined for a boolean, a number,
    a string or an array. *)
Theorem createMessage_outcome (nonce : string) :
  ((∃ reason, createMessage JSONparse nonce = Throws reason)
   ↔ JSONparse nonce = None ∨ JSONparse nonce = Some ANil)
  ∧ (∀ m, JSONparse nonce = Some (AMap m) →
       createMessage JSONparse nonce
       = Returns {| msgState := m !! "state"; msgChallenge := m !! "challenge" |})
  ∧ (∀ v, JSONparse nonce = Some v → v ≠ ANil → assertMap v = None →
       createMessage JSONparse nonce
       = Returns {| msgState := None; msgChallenge := None |}).
Proof.
  unfold createMessage. split_and!.
  - destruct (JSONparse nonce) as [[]|]; simpl; split;
      first [by intros [? ?] | by intros [?|?] | eauto].
  - by intros m ->.
  - intros v -> Hnil Hmap. by destruct v.
Qed.

(** X19. [verify] never returns [false]: it returns [true], and then the
    status is [authenticated], or it throws, and then the status is as it
    was. It returns [true] exactly when the request was answered
    with [ok]. *)
Theorem verify_true_or_throws fetch message signature status :
  let outcome := verify DIMO_API_BASEURL fetch message signature status in
  (outcome = (Returns true, authenticated)
   ∨ ∃ reason, outcome = (Throws reason, status))
  ∧ (outcome.1 = Returns true
     ↔ granted DIMO_API_BASEURL (Verify fetch message signature) = true).
Proof.
  unfold verify, granted. simpl.
  destruct (fetch _) as [[[] text]|reason]; simpl; split; eauto; split; done.
Qed.

Lemma statusAfter_granted e status :
  statusAfter DIMO_API_BASEURL e status
  = if granted DIMO_API_BASEURL e then authenticated else status.
Proof.
  destruct e as [| |fetch message signature|fetch|fetch token|]; simpl; try done.
  - unfold verify. by destruct (fetch _) as [[[] ?]|].
  - unfold signOut. by destruct (fetch _).
  - unfold onSuccess. by destruct (fetch _) as [[[] ?]|].
Qed.

Lemma afterAll_page es p :
  pageHref p = (if decide (pageStatus p = authenticated) then Some (DIMO_API_BASEURL +:+ "/vehicles/me") else None) →
  pageStatus (afterAll DIMO_API_BASEURL es p)
  = (if existsb (granted DIMO_API_BASEURL) es then authenticated else pageStatus p)
  ∧ pageHref (afterAll DIMO_API_BASEURL es p)
    = (if decide (pageStatus (afterAll DIMO_API_BASEURL es p) = authenticated)
       then Some (DIMO_API_BASEURL +:+ "/vehicles/me") else None).
Proof.
  unfold afterAll. revert p. induction es as [|e es IH]; intros p Hp; cbn [foldl existsb].
  { done. }
  destruct (IH (after DIMO_API_BASEURL e p)) as [IHs IHh].
  { unfold after, effect. simpl. rewrite statusAfter_granted.
    destruct (granted DIMO_API_BASEURL e); simpl; repeat case_decide; try done; congruence. }
  split; [|done]. rewrite IHs. unfold after. simpl. rewrite statusAfter_granted.
  destruct (granted DIMO_API_BASEURL e); simpl; [|done].
  by destruct (existsb _ es).
Qed.

(** X20. From the mounted page, after any sequence of events: the status
    is [authenticated] exactly when one of the events was a verification
    or a widget login answered with [ok], and it is [unauthenticated]
    otherwise; the window has been sent to the vehicles page exactly when
    the status is [authenticated]; and once [authenticated], no further
    event, signing out included, changes the status. *)
Theorem page_status (es : list event) :
  let p := afterAll DIMO_API_BASEURL es mounted in
  pageStatus p
  = (if existsb (granted DIMO_API_BASEURL) es then authenticated else unauthenticated)
  ∧ pageHref p
    = (if existsb (granted DIMO_API_BASEURL) es
       then Some (DIMO_API_BASEURL +:+ "/vehicles/me") else None)
  ∧ (∀ es', pageStatus p = authenticated →
       pageStatus (afterAll DIMO_API_BASEURL es' p) = authenticated).
Proof.
  intros p. destruct (afterAll_page es mounted eq_refl) as [Hs Hh]. fold p in Hs, Hh.
  simpl in Hs. split_and!.
  - done.
  - rewrite Hh, Hs. by destruct (existsb _ es).
  - intros es' Hauth.
    destruct (afterAll_page es' p) as [Hs' _].
    { rewrite Hh. done. }
    rewrite Hs', Hauth. by destruct (existsb _ es').
Qed.

End LoginPageProperties.

(** * Further properties at sample inputs *)

(** Answers 200 and 503 with the same listing give the same result. *)
Lemma status_not_read_sample :
  queryTripsAPI everyURLParses (answer 200 {| Trips := [sampleTrip "trip-2"] |})
    8 sampleSettings "sid-1" 0 sampleWorld
  = queryTripsAPI everyURLParses (answer 503 {| Trips := [sampleTrip "trip-2"] |})
      8 sampleSettings "sid-1" 0 sampleWorld.
Proof.
  apply (proj1 (status_not_read everyURLParses escapeNothing)).
  intros req. reflexivity.
Defined.

Lemma HandleGetVehicles_requires_address_sample :
  HandleGetVehicles everyURLParses (answer 200 {| Nodes := [] |}) ANil sampleSettings boot
  = (Ok (reply StatusBadRequest (SendString "Ethereum address is required")), boot).
Proof.
  apply (HandleGetVehicles_requires_address everyURLParses
           (answer 200 {| Nodes := [] |}) ANil sampleSettings boot).
  left. reflexivity.
Defined.

Lemma HandleGetVehicles_outcome_sample :
  (HandleGetVehicles everyURLParses (λ _, TransportErr "connection refused")
     (AString "0xABC") sampleSettings boot).1
  = Ok (reply StatusInternalServerError
          (SendString "Error querying identity API: connection refused")).
Proof.
  rewrite (HandleGetVehicles_outcome everyURLParses
             (λ _, TransportErr "connection refused") "0xABC" sampleSettings boot
             ltac:(discriminate)).
  reflexivity.
Defined.

Lemma token_not_a_string_panics_sample :
  queryTripsAPI everyURLParses (answer 200 {| Trips := [] |})
    7 sampleSettings "sid-3" 0 numberTokenWorld
  = (Panic, numberTokenWorld).
Proof.
  apply (proj1 (token_not_a_string_panics everyURLParses escapeNothing 7 sampleSettings
                  "sid-3" 0 (AFloat64 1) numberTokenWorld eq_refl eq_refl)).
  reflexivity.
Defined.

Lemma session_lifetime_sample :
  cacheGet "sid-1" (3 * Hour)
    (CacheInstance (HandleSubmitChallenge everyURLParses (answer 200 sampleGrant)
                      sampleSettings "s1" "0xsig" "sid-1" 0 0 boot).2)
  = None.
Proof.
  rewrite (session_lifetime everyURLParses (answer 200 sampleGrant) sampleSettings
             "s1" "0xsig" "sid-1" 0 0 boot (AString "tok") (3 * Hour)
             ltac:(vm_compute; reflexivity)).
  reflexivity.
Defined.

Lemma resubmission_gives_second_session_sample :
  cacheGet "sid-2" Hour
    (CacheInstance
       (HandleSubmitChallenge everyURLParses (answer 200 sampleGrant)
          sampleSettings "s1" "0xsig" "sid-2" 1 1
          (HandleSubmitChallenge everyURLParses (answer 200 sampleGrant)
             sampleSettings "s1" "0xsig" "sid-1" 0 0 boot).2).2)
  = Some (AString "tok").
Proof.
  apply (resubmission_gives_second_session everyURLParses
           (answer 200 sampleGrant) (answer 200 sampleGrant) sampleSettings
           "s1" "0xsig" "sid-1" "sid-2" 0 0 1 1 boot (AString "tok") (AString "tok") Hour).
  - vm_compute. reflexivity.
  - vm_compute. reflexivity.
  - vm_compute. discriminate.
  - vm_compute. discriminate.
Defined.

(** Session [sid-1] lists trip [trip-2] of vehicle 8; session [sid-2] then
    asks for its path. *)
Lemma trip_path_request_of_any_session_sample :
  outbound
    (handleMapDataForTrip everyURLParses escapeNothing (answer 200 (AMap (telemetryDoc [])))
       "sid-2" 0 sampleSettings "trip-2" "2024-01-01" "2024-01-02"
       (queryTripsAPI everyURLParses (answer 200 {| Trips := [sampleTrip "trip-2"] |})
          8 sampleSettings "sid-1" 0 twoSessionsWorld).2).2
  = [tripsRequest sampleSettings 8 "tok";
     historyRequest escapeNothing sampleSettings 8 "2024-01-01" "2024-01-02" "tok2"].
Proof.
  refine (trip_path_request_of_any_session everyURLParses escapeNothing
            (answer 200 {| Trips := [sampleTrip "trip-2"] |})
            (answer 200 (AMap (telemetryDoc [])))
            sampleSettings "sid-1" "sid-2" 0 0 8 "tok2" "2024-01-01" "2024-01-02"
            twoSessionsWorld _ _ (sampleTrip "trip-2") eq_refl _ eq_refl eq_refl).
  apply list_elem_of_here.
Defined.

Lemma history_error_echoed_sample :
  handleMapDataForTrip everyURLParses escapeNothing (λ _, TransportErr "connection refused")
    "sid-1" 0 sampleSettings "trip-1" "2024-01-01" "2024-01-02" sampleWorld
  = (Ok (reply StatusInternalServerError
           (JSON (AMap {[ "error" := AString
              "Failed to fetch historical data: connection refused" ]}))),
     sentAlso (historyRequest escapeNothing sampleSettings 7
                 "2024-01-01" "2024-01-02" "tok") sampleWorld).
Proof.
  apply (proj2 (history_error_echoed everyURLParses escapeNothing
                  (λ _, TransportErr "connection refused")
                  "sid-1" 0 sampleSettings "trip-1" "2024-01-01" "2024-01-02" 7 "tok"
                  "connection refused" sampleWorld eq_refl eq_refl) eq_refl).
  left. reflexivity.
Defined.

Lemma SliceStable_order_of_arrival_sample :
  ∃ sorted,
    SliceStable [sampleHit 10 20 "2024-01-01T00:00:02Z";
                 sampleHit 11 21 "2024-01-01T00:00:01Z"] = Some sorted
    ∧ SliceStable [sampleHit 11 21 "2024-01-01T00:00:01Z";
                   sampleHit 10 20 "2024-01-01T00:00:02Z"] = Some sorted.
Proof.
  destruct (SliceStable_order_of_arrival
              [sampleHit 10 20 "2024-01-01T00:00:02Z";
               sampleHit 11 21 "2024-01-01T00:00:01Z"]
              [sampleHit 11 21 "2024-01-01T00:00:01Z";
               sampleHit 10 20 "2024-01-01T00:00:02Z"])
    as (sorted & H1 & H2 & _).
  - apply perm_swap.
  - repeat apply Forall_cons_2; [..|apply Forall_nil_2]; eexists; vm_compute; reflexivity.
  - apply (bool_decide_unpack _). vm_compute. exact I.
  - exists sorted. split; [exact H1|exact H2].
Defined.

Lemma nonce_becomes_message_sample :
  getNonce "https://app.example" (fetchOk "nonce-text") (Some "0xABC")
  = Returns "nonce-text"
  ∧ createMessage parseSample "nonce-text"
    = Returns {| msgState := Some (AString "s1"); msgChallenge := Some (AString "c1") |}.
Proof.
  apply (nonce_becomes_message parseSample "https://app.example"
           (fetchOk "nonce-text") (Some "0xABC")
           {| resOk := true; resText := Returns "nonce-text" |} "nonce-text"
           sampleChallenge eq_refl eq_refl eq_refl eq_refl).
Defined.

Lemma queryTripsAPI_outcome_sample :
  queryTripsAPI everyURLParses (λ _, TransportErr "connection refused")
    8 sampleSettings "sid-1" 0 sampleWorld
  = (Err "connection refused", sentAlso (tripsRequest sampleSettings 8 "tok") sampleWorld).
Proof.
  apply (queryTripsAPI_outcome everyURLParses (λ _, TransportErr "connection refused")
           8 sampleSettings "sid-1" 0 "tok" sampleWorld eq_refl eq_refl).
Defined.
